(** * Stream pack builder: workflow state, rubric and stopping conditions

    A shallow embedding of the multi-round workflow of
    [stream_pack_builder]: the rubric ([multi_agent/rubric.py]), the
    workflow state and its persistence ([multi_agent/state.py]), the
    stopping-condition evaluator ([agents/pm.py]), the fallback path of the
    critic ([agents/critic.py]) and the driver loop
    ([multi_agent/orchestrator.py]); further, the vision messages of the
    critic, the round brief of the project manager, the pricing of
    [etsy/listing_metadata.py] and the final banner of [cli.py].

    Conventions of the embedding:
    - a Python [int] is a [Z]; a Python [float] is read as the exact
      rational it denotes, a [Q] (rounding, NaN and infinities are outside
      the model);
    - a Python [str] is a [string] of UTF-8 bytes; the needles of all the
      substring tests of the code are ASCII, so testing on bytes agrees with
      testing on code points;
    - a [List[str]] is a [list string]; a [Dict[str, str]] is an association
      list in insertion order;
    - a function that may raise returns a [result]. *)

From Stdlib Require Import ZArith QArith Qminmax Lqa String Ascii List Bool Lia.
From Stdlib Require Import DecimalString Permutation.
Import ListNotations.

Local Open Scope string_scope.
Local Open Scope Z_scope.

(** ** Python primitives *)

Module Py.

(** Exceptions, by class name, with the payload the code inspects. *)
Inductive exn : Type :=
| TypeError (msg : string)
| KeyError (key : string)
| ValueError (msg : string)
| FileNotFoundError (msg : string)
| FileExistsError (path : string)
| IsADirectoryError (path : string)
| JSONDecodeError (msg : string)
| AttributeError (msg : string)
| OtherError (msg : string).

Inductive result (A : Type) : Type :=
| Ok (a : A)
| Raise (e : exn).
Arguments Ok {A} a.
Arguments Raise {A} e.

Definition bind {A B : Type} (m : result A) (k : A -> result B) : result B :=
  match m with
  | Ok a => k a
  | Raise e => Raise e
  end.

(** [needle in hay] on strings. *)
Fixpoint contains (needle hay : string) : bool :=
  String.prefix needle hay ||
  match hay with
  | EmptyString => false
  | String _ rest => contains needle rest
  end.

(** [c in s] for one character. *)
Fixpoint occurs (c : ascii) (s : string) : bool :=
  match s with
  | EmptyString => false
  | String d rest => Ascii.eqb c d || occurs c rest
  end.

Definition lower_ascii (c : ascii) : ascii :=
  let n := nat_of_ascii c in
  if (Nat.leb 65 n && Nat.leb n 90)%bool then ascii_of_nat (n + 32) else c.

(** [s.lower()], on the ASCII letters. *)
Fixpoint lower (s : string) : string :=
  match s with
  | EmptyString => EmptyString
  | String c rest => String (lower_ascii c) (lower rest)
  end.

(** [str(n)] for an [int]. *)
Definition str_int (n : Z) : string := NilZero.string_of_int (Z.to_int n).

(** [l.append(x)]. *)
Definition append {A : Type} (l : list A) (x : A) : list A := (l ++ [x])%list.

(** [len(l)]. *)
Definition len {A : Type} (l : list A) : Z := Z.of_nat (length l).

(** Truth value of a list: non-empty. *)
Definition truthy_list {A : Type} (l : list A) : bool :=
  match l with
  | [] => false
  | _ :: _ => true
  end.

(** Truth value of a number: non-zero. *)
Definition truthy_num (q : Q) : bool := negb (Qeq_bool q 0).

(** [a >= b] on numbers. *)
Definition ge (a b : Q) : bool := Qle_bool b a.

(** [a > b] on numbers. *)
Definition gt (a b : Q) : bool := negb (Qle_bool a b).

(** [max(a, b)]: the first argument unless the second is greater. *)
Definition max (a b : Q) : Q := if gt b a then b else a.

(** [format(q, ".1f")]: one digit after the point, the exact value rounded
    half to even, a minus sign for negative values. *)
Definition round_half_even (n d : Z) : Z :=
  let k := n / d in
  let r := n mod d in
  if (2 * r >? d) || ((2 * r =? d) && Z.odd k) then k + 1 else k.

Definition fmt_1f (q : Q) : string :=
  let tenths := round_half_even (Z.abs (Qnum q) * 10) (Z.pos (Qden q)) in
  (if Qnum q <? 0 then "-" else "") ++
  str_int (tenths / 10) ++ "." ++ str_int (tenths mod 10).

End Py.

Import Py.

Notation "x <- m ;; k" := (Py.bind m (fun x => k))
  (at level 61, m at next level, right associativity).

(** [str(e)] for an exception: its message. *)
Definition str_exn (e : exn) : string :=
  match e with
  | TypeError m | KeyError m | ValueError m | FileNotFoundError m
  | FileExistsError m | IsADirectoryError m | JSONDecodeError m
  | AttributeError m
  | OtherError m => m
  end.

(** ** The rubric ([multi_agent/rubric.py]) *)

Record EvaluationScore : Type := mkEvaluationScore {
  dimension : string;
  score : Q;
  weight : Q;
  justification : string;
  issues : list string
}.

Record PackEvaluation : Type := mkPackEvaluation {
  pe_pack_name : string;
  overall_score : Q;
  dimension_scores : list EvaluationScore;
  critical_issues : list string;
  selected_images : list (string * string);
  deltas : list string;
  automated_checks_passed : bool
}.

(** [PackEvaluation.passes_threshold]: the constant 8.5 is the source's. *)
Definition passes_threshold (ev : PackEvaluation) : bool :=
  ge (overall_score ev) (85 # 10) && negb (truthy_list (critical_issues ev)).

(** *** What the checks see of a pack directory

    An image file as the validators observe it: its name, its stem, what
    opening it with the imaging library gives (the pixel size, or the
    exception raised) and its size in bytes. *)
Record ImageFile : Type := mkImageFile {
  img_name : string;
  img_stem : string;
  img_open : result (Z * Z);
  img_st_size : Z
}.

Record ZipFile : Type := mkZipFile {
  zip_name : string;
  zip_st_size : Z
}.

(** A pack directory: its path and, for each sub-directory the checks
    visit, [None] when it does not exist and otherwise the files the glob
    pattern of the check matches, in the order the file system lists them. *)
Record PackDir : Type := mkPackDir {
  pack_path : string;
  final_pngs : option (list ImageFile);
  listing_jpgs : option (list ImageFile);
  zips : option (list ZipFile)
}.

(** [path / name]. *)
Definition path_join (path name : string) : string := path ++ "/" ++ name.

(** [st_size / (1024 * 1024)]. *)
Definition size_mb (st_size : Z) : Q := Qmake st_size 1048576.

(** The body of the loop of [validate_technical_overlays]. *)
Definition overlay_step (issues : list string) (img : ImageFile) : list string :=
  match img_open img with
  | Ok (width, height) =>
      if negb ((width =? 1920) && (height =? 1080)) then
        append issues ("Overlay wrong resolution: " ++ img_name img ++ " is " ++
                    str_int width ++ "x" ++ str_int height ++
                    ", expected 1920x1080")
      else issues
  | Raise e =>
      append issues ("Failed to read " ++ img_name img ++ ": " ++ str_exn e)
  end.

Definition validate_technical_overlays (final_path : string)
    (final_dir : option (list ImageFile)) : list string * bool :=
  match final_dir with
  | None => (["Final directory not found: " ++ final_path], false)
  | Some [] => (["No overlay PNG files found in " ++ final_path], false)
  | Some overlay_files =>
      let issues := fold_left overlay_step overlay_files [] in
      (issues, len issues =? 0)
  end.

(** [sorted(...)] on the files of one directory: by name. *)
Fixpoint insert_by_name (x : ImageFile) (l : list ImageFile) : list ImageFile :=
  match l with
  | [] => [x]
  | y :: rest =>
      if String.leb (img_name x) (img_name y) then x :: y :: rest
      else y :: insert_by_name x rest
  end.

Definition sorted_by_name (l : list ImageFile) : list ImageFile :=
  fold_right insert_by_name [] l.

(** [enumerate(l)], counting from [start]. *)
Fixpoint enumerate_from {A : Type} (start : Z) (l : list A) : list (Z * A) :=
  match l with
  | [] => []
  | x :: rest => (start, x) :: enumerate_from (start + 1) rest
  end.

(** The body of the loop of [validate_etsy_listings], on the pair of the
    [errors] and [warnings] lists. *)
Definition listing_step (acc : list string * list string)
    (entry : Z * ImageFile) : list string * list string :=
  let '(errors, warnings) := acc in
  let '(idx, img) := entry in
  match img_open img with
  | Ok (width, height) =>
      let mb := size_mb (img_st_size img) in
      let errors1 :=
        if (width <? 2000) || (height <? 2000) then
          append errors (img_name img ++ ": Too small " ++ str_int width ++ "x" ++
                      str_int height ++
                      ", Etsy requires min 2000px on smallest side")
        else errors in
      let errors2 :=
        if (idx =? 0) && (width <? height) then
          append errors1 (img_name img ++
                       ": First listing image should be landscape or square " ++
                       "(current: " ++ str_int width ++ "x" ++ str_int height ++
                       ")")
        else errors1 in
      let warnings1 :=
        if gt mb 1 then
          append warnings (img_name img ++ ": Size " ++ fmt_1f mb ++ "MB > 1MB " ++
                        "(Etsy recommends ≤1MB for faster loading)")
        else warnings in
      let errors3 :=
        if gt mb 2 then
          append errors2 (img_name img ++ ": Size " ++ fmt_1f mb ++
                       "MB exceeds Etsy's 2MB limit")
        else errors2 in
      (errors3, warnings1)
  | Raise e =>
      (append errors ("Failed to validate " ++ img_name img ++ ": " ++
                   str_exn e), warnings)
  end.

Definition validate_etsy_listings (listing_dir : option (list ImageFile))
    : list string * list string * bool :=
  match listing_dir with
  | None => ([], [], true)
  | Some files =>
      match sorted_by_name files with
      | [] => ([], [], true)
      | listing_files =>
          let '(errors, warnings) :=
            fold_left listing_step (enumerate_from 0 listing_files) ([], []) in
          (errors, warnings, len errors =? 0)
      end
  end.

(** The body of the size loop of [validate_etsy_downloads]. *)
Definition zip_step (issues : list string) (z : ZipFile) : list string :=
  let mb := size_mb (zip_st_size z) in
  if gt mb 20 then
    append issues (zip_name z ++ ": Size " ++ fmt_1f mb ++
                "MB exceeds Etsy's 20MB limit")
  else issues.

Definition validate_etsy_downloads (zips_dir : option (list ZipFile))
    : list string * bool :=
  match zips_dir with
  | None => ([], true)
  | Some [] => ([], true)
  | Some zip_files =>
      let issues0 :=
        if len zip_files >? 5 then
          ["Too many download files: " ++ str_int (len zip_files) ++
           " ZIPs found, Etsy allows max 5 files"]
        else [] in
      let issues := fold_left zip_step zip_files issues0 in
      (issues, len issues =? 0)
  end.

Definition check_critical_issues (pack_dir : PackDir) : list string :=
  match final_pngs pack_dir with
  | None => ["Missing 03_final/ directory"]
  | Some overlay_files =>
      let critical0 :=
        if negb (truthy_list overlay_files)
        then ["No overlay PNG files found in 03_final/"] else [] in
      let '(overlay_issues, _) :=
        validate_technical_overlays (path_join (pack_path pack_dir) "03_final")
                                    (final_pngs pack_dir) in
      let critical1 :=
        fold_left (fun critical issue =>
                     if contains "wrong resolution" (lower issue)
                     then append critical ("CRITICAL: " ++ issue)
                     else critical)
                  overlay_issues critical0 in
      match zips pack_dir with
      | None => critical1
      | Some _ =>
          let '(zip_issues, _) := validate_etsy_downloads (zips pack_dir) in
          fold_left (fun critical issue =>
                       if contains "exceeds" (lower issue) &&
                          contains "20mb" (lower issue)
                       then append critical ("CRITICAL: " ++ issue)
                       else critical)
                    zip_issues critical1
      end
  end.

Definition compute_automated_score (pack_dir : PackDir) : Q * list string :=
  let '(overlay_issues, overlay_pass) :=
    validate_technical_overlays (path_join (pack_path pack_dir) "03_final")
                                (final_pngs pack_dir) in
  let all_issues := overlay_issues in
  let '(listing_errors, listing_warnings, listing_pass) :=
    validate_etsy_listings (listing_jpgs pack_dir) in
  let all_issues := (all_issues ++ listing_errors)%list in
  let '(zip_issues, zip_pass) := validate_etsy_downloads (zips pack_dir) in
  let all_issues := (all_issues ++ zip_issues)%list in
  let score := Py.max 0 (10 - inject_Z (len all_issues) * (1 # 2))%Q in
  (score, all_issues).

(** [sum(...)]: the accumulator starts at 0 and takes the terms from the
    left. *)
Definition py_sum (terms : list Q) : Q := fold_left Qplus terms 0%Q.

Definition calculate_overall_score (dimension_scores : list EvaluationScore) : Q :=
  if negb (truthy_list dimension_scores) then 0%Q
  else
    let total_weight := py_sum (map weight dimension_scores) in
    if Qeq_bool total_weight 0 then 0%Q
    else
      let weighted_sum :=
        py_sum (map (fun s => (score s * weight s)%Q) dimension_scores) in
      (weighted_sum / total_weight)%Q.

(** ** The workflow state ([multi_agent/state.py]) *)

Record RoundState : Type := mkRoundState {
  round_num : Z;
  timestamp : string;
  prompts_used : list (string * string);
  evaluation : option PackEvaluation;
  variants_generated : Z;
  cost_usd : Q
}.

Record WorkflowState : Type := mkWorkflowState {
  ws_pack_name : string;
  started_at : string;
  max_rounds : Z;
  quality_threshold : Q;
  rounds : list RoundState;
  completed : bool;
  completion_reason : string
}.

(** [l[-1]] when [l] is not empty. *)
Fixpoint last_item {A : Type} (l : list A) : option A :=
  match l with
  | [] => None
  | [x] => Some x
  | _ :: rest => last_item rest
  end.

Definition current_round (ws : WorkflowState) : Z := len (rounds ws) + 1.

Definition latest_evaluation (ws : WorkflowState) : option PackEvaluation :=
  match last_item (rounds ws) with
  | None => None
  | Some r => evaluation r
  end.

Definition latest_deltas (ws : WorkflowState) : list string :=
  match latest_evaluation ws with
  | Some ev => deltas ev
  | None => []
  end.

Definition latest_score (ws : WorkflowState) : option Q :=
  match latest_evaluation ws with
  | Some ev => Some (overall_score ev)
  | None => None
  end.

Definition score_trend (ws : WorkflowState) : list Q :=
  flat_map (fun r => match evaluation r with
                     | Some ev => [overall_score ev]
                     | None => []
                     end) (rounds ws).

Definition add_round (ws : WorkflowState) (round_state : RoundState)
    : WorkflowState :=
  mkWorkflowState (ws_pack_name ws) (started_at ws) (max_rounds ws)
                  (quality_threshold ws) (append (rounds ws) round_state)
                  (completed ws) (completion_reason ws).

Definition finalize (ws : WorkflowState) (reason : string) : WorkflowState :=
  mkWorkflowState (ws_pack_name ws) (started_at ws) (max_rounds ws)
                  (quality_threshold ws) (rounds ws) true reason.

(** [WorkflowState.create_new]; [now] is the clock reading, in ISO form. *)
Definition create_new (now : string) (pack_name : string) (max_rounds : Z)
    (quality_threshold : Q) : WorkflowState :=
  mkWorkflowState pack_name now max_rounds quality_threshold [] false "".

Section StoppingConditions.

(** [str(x)] for a [float]: the interpreter's shortest round-tripping
    decimal, which the rational model does not fix; a parameter. It only
    occurs inside human-readable reasons. *)
Variable repr_float : Q -> string.

Definition should_continue (ws : WorkflowState) : bool * string :=
  match latest_evaluation ws with
  | None => (true, "No evaluation yet")
  | Some ev =>
      if truthy_list (critical_issues ev) then
        (false, "BLOCKED by " ++ str_int (len (critical_issues ev)) ++
                " critical issue(s)")
      else if passes_threshold ev then
        (false, "PASS - Score " ++ fmt_1f (overall_score ev) ++
                " ≥ threshold " ++ repr_float (quality_threshold ws))
      else if current_round ws >? max_rounds ws then
        (false, "Max rounds (" ++ str_int (max_rounds ws) ++ ") reached")
      else
        (true, "Score " ++ fmt_1f (overall_score ev) ++ " < threshold " ++
               repr_float (quality_threshold ws))
  end.

(** ** The project manager ([agents/pm.py]) *)

Definition determine_variant_count (round_num max_rounds : Z) : Z :=
  if round_num =? 1 then 3
  else if round_num =? 2 then 2
  else 1.

(** [check_stopping_conditions]: the triple (should_stop, decision, reason).
    Formatting an absent score with [.1f] raises [TypeError]. *)
Definition check_stopping_conditions (workflow_state : WorkflowState)
    : result (bool * string * string) :=
  let '(should_continue, reason) := should_continue workflow_state in
  if negb should_continue then
    if contains "BLOCKED" reason then Ok (true, "BLOCKED", reason)
    else if contains "PASS" reason || contains "threshold" (lower reason) then
      Ok (true, "PASS", reason)
    else
      match latest_score workflow_state with
      | Some latest_score =>
          if truthy_num latest_score &&
             ge latest_score (quality_threshold workflow_state) then
            Ok (true, "PASS",
                "Max rounds reached, but quality acceptable (" ++
                fmt_1f latest_score ++ "/10)")
          else
            Ok (true, "CONTINUE",
                "Max rounds reached with score " ++ fmt_1f latest_score ++
                "/10")
      | None =>
          Raise (TypeError "unsupported format string passed to NoneType.__format__")
      end
  else Ok (false, "CONTINUE", reason).

End StoppingConditions.

(** ** Persistence ([WorkflowState.save], [WorkflowState.load])

    The state file holds one JSON document. [json.dump] and [json.load] are
    the standard library's; a file written by [json.dump] is represented by
    the document it holds, a file that is not JSON by [TextFile]. *)

#[local] Set Warnings "-register-all".

Inductive json : Type :=
| JNull
| JBool (b : bool)
| JInt (n : Z)
| JFloat (q : Q)
| JStr (s : string)
| JList (items : list json)
| JDict (entries : list (string * json)).

Module Dict.

Fixpoint lookup {V : Type} (d : list (string * V)) (key : string) : option V :=
  match d with
  | [] => None
  | (k, v) :: rest => if String.eqb k key then Some v else lookup rest key
  end.

(** [d[key] = v]: in place when the key is present, at the end otherwise. *)
Fixpoint set {V : Type} (d : list (string * V)) (key : string) (v : V)
    : list (string * V) :=
  match d with
  | [] => [(key, v)]
  | (k, w) :: rest =>
      if String.eqb k key then (k, v) :: rest else (k, w) :: set rest key v
  end.

End Dict.

(** [d[key]]. *)
Definition getitem (d : json) (key : string) : result json :=
  match d with
  | JDict entries =>
      match Dict.lookup entries key with
      | Some v => Ok v
      | None => Raise (KeyError key)
      end
  | _ => Raise (TypeError "object is not subscriptable by a string")
  end.

(** [d.get(key, default)]. *)
Definition get (d : json) (key : string) (default : json) : result json :=
  match d with
  | JDict entries =>
      match Dict.lookup entries key with
      | Some v => Ok v
      | None => Ok default
      end
  | _ => Raise (AttributeError "object has no attribute 'get'")
  end.

(** Truth value of a decoded JSON value. *)
Definition truthy (v : json) : bool :=
  match v with
  | JNull => false
  | JBool b => b
  | JInt n => negb (n =? 0)
  | JFloat q => truthy_num q
  | JStr s => negb (String.eqb s "")
  | JList items => truthy_list items
  | JDict entries => truthy_list entries
  end.

(** The typed records have no place for a value of another type than the
    field's annotation: reading such a value is reported as a [TypeError]
    (the interpreter would store it unchecked). *)
Definition as_str (v : json) : result string :=
  match v with JStr s => Ok s | _ => Raise (TypeError "str expected") end.

Definition as_int (v : json) : result Z :=
  match v with JInt n => Ok n | _ => Raise (TypeError "int expected") end.

Definition as_float (v : json) : result Q :=
  match v with
  | JFloat q => Ok q
  | JInt n => Ok (inject_Z n)
  | _ => Raise (TypeError "float expected")
  end.

Definition as_bool (v : json) : result bool :=
  match v with JBool b => Ok b | _ => Raise (TypeError "bool expected") end.

Definition as_list (v : json) : result (list json) :=
  match v with JList l => Ok l | _ => Raise (TypeError "list expected") end.

Fixpoint map_result {A B : Type} (f : A -> result B) (l : list A)
    : result (list B) :=
  match l with
  | [] => Ok []
  | x :: rest =>
      y <- f x ;;
      ys <- map_result f rest ;;
      Ok (y :: ys)
  end.

Definition as_str_list (v : json) : result (list string) :=
  l <- as_list v ;; map_result as_str l.

Definition as_str_dict (v : json) : result (list (string * string)) :=
  match v with
  | JDict entries =>
      map_result (fun kv => s <- as_str (snd kv) ;; Ok (fst kv, s)) entries
  | _ => Raise (TypeError "dict expected")
  end.

Definition json_of_str_list (l : list string) : json := JList (map JStr l).

Definition json_of_str_dict (d : list (string * string)) : json :=
  JDict (map (fun kv => (fst kv, JStr (snd kv))) d).

(** [dataclasses.asdict], at each of the three record types. *)
Definition asdict_EvaluationScore (s : EvaluationScore) : json :=
  JDict [("dimension", JStr (dimension s));
         ("score", JFloat (score s));
         ("weight", JFloat (weight s));
         ("justification", JStr (justification s));
         ("issues", json_of_str_list (issues s))].

Definition asdict_PackEvaluation (ev : PackEvaluation) : json :=
  JDict [("pack_name", JStr (pe_pack_name ev));
         ("overall_score", JFloat (overall_score ev));
         ("dimension_scores",
          JList (map asdict_EvaluationScore (dimension_scores ev)));
         ("critical_issues", json_of_str_list (critical_issues ev));
         ("selected_images", json_of_str_dict (selected_images ev));
         ("deltas", json_of_str_list (deltas ev));
         ("automated_checks_passed", JBool (automated_checks_passed ev))].

Definition asdict_RoundState (r : RoundState) : list (string * json) :=
  [("round_num", JInt (round_num r));
   ("timestamp", JStr (timestamp r));
   ("prompts_used", json_of_str_dict (prompts_used r));
   ("evaluation", match evaluation r with
                  | Some ev => asdict_PackEvaluation ev
                  | None => JNull
                  end);
   ("variants_generated", JInt (variants_generated r));
   ("cost_usd", JFloat (cost_usd r))].

(** [RoundState.to_dict]: a [PackEvaluation] object is always true. *)
Definition to_dict (r : RoundState) : json :=
  let data := asdict_RoundState r in
  match evaluation r with
  | Some ev =>
      JDict (Dict.set data "evaluation"
        (JDict [("pack_name", JStr (pe_pack_name ev));
                ("overall_score", JFloat (overall_score ev));
                ("dimension_scores",
                 JList (map (fun s =>
                   JDict [("dimension", JStr (dimension s));
                          ("score", JFloat (score s));
                          ("weight", JFloat (weight s));
                          ("justification", JStr (justification s));
                          ("issues", json_of_str_list (issues s))])
                   (dimension_scores ev)));
                ("critical_issues", json_of_str_list (critical_issues ev));
                ("selected_images", json_of_str_dict (selected_images ev));
                ("deltas", json_of_str_list (deltas ev));
                ("automated_checks_passed",
                 JBool (automated_checks_passed ev))]))
  | None => JDict data
  end.

Definition asdict_WorkflowState (ws : WorkflowState) : list (string * json) :=
  [("pack_name", JStr (ws_pack_name ws));
   ("started_at", JStr (started_at ws));
   ("max_rounds", JInt (max_rounds ws));
   ("quality_threshold", JFloat (quality_threshold ws));
   ("rounds", JList (map (fun r => JDict (asdict_RoundState r)) (rounds ws)));
   ("completed", JBool (completed ws));
   ("completion_reason", JStr (completion_reason ws))].

(** The document [save] hands to [json.dump]. *)
Definition save_data (ws : WorkflowState) : json :=
  JDict (Dict.set (asdict_WorkflowState ws) "rounds"
                  (JList (map to_dict (rounds ws)))).

(** *** The file system *)

Inductive node : Type :=
| Dir
| JsonFile (doc : json)
| TextFile (text : string).

Definition file_system : Type := string -> option node.

Definition write_node (fs : file_system) (path : string) (n : node)
    : file_system :=
  fun p => if String.eqb p path then Some n else fs p.

(** [path.mkdir(exist_ok=True)], [parent] being the parent of [path]. *)
Definition mkdir_exist_ok (fs : file_system) (parent path : string)
    : result file_system :=
  match fs path with
  | Some Dir => Ok fs
  | Some _ => Raise (FileExistsError path)
  | None =>
      match fs parent with
      | Some Dir => Ok (write_node fs path Dir)
      | Some _ => Raise (OtherError "NotADirectoryError")
      | None => Raise (FileNotFoundError path)
      end
  end.

Definition state_file_of (pack_dir : string) : string :=
  path_join (path_join pack_dir "qa") "workflow_state.json".

Definition save (ws : WorkflowState) (pack_dir : string) (fs : file_system)
    : result file_system :=
  let qa_dir := path_join pack_dir "qa" in
  fs1 <- mkdir_exist_ok fs pack_dir qa_dir ;;
  let state_file := path_join qa_dir "workflow_state.json" in
  let data := save_data ws in
  match fs1 state_file with
  | Some Dir => Raise (IsADirectoryError state_file)
  | _ => Ok (write_node fs1 state_file (JsonFile data))
  end.

(** [EvaluationScore] called with the entries of [s] as keyword arguments. *)
Definition EvaluationScore_of_kwargs (s : json) : result EvaluationScore :=
  match s with
  | JDict entries =>
      if forallb (fun kv =>
                    existsb (String.eqb (fst kv))
                      ["dimension"; "score"; "weight"; "justification";
                       "issues"]) entries
      then
        match Dict.lookup entries "dimension", Dict.lookup entries "score",
              Dict.lookup entries "weight",
              Dict.lookup entries "justification" with
        | Some d, Some sc, Some w, Some j =>
            d' <- as_str d ;;
            sc' <- as_float sc ;;
            w' <- as_float w ;;
            j' <- as_str j ;;
            i' <- match Dict.lookup entries "issues" with
                  | Some i => as_str_list i
                  | None => Ok []
                  end ;;
            Ok (mkEvaluationScore d' sc' w' j' i')
        | _, _, _, _ =>
            Raise (TypeError "missing required positional argument")
        end
      else Raise (TypeError "got an unexpected keyword argument")
  | _ => Raise (TypeError "argument after ** must be a mapping")
  end.

Definition load_evaluation (eval_data : json) : result (option PackEvaluation) :=
  if truthy eval_data then
    ds <- getitem eval_data "dimension_scores" ;;
    ds <- as_list ds ;;
    dimension_scores <- map_result EvaluationScore_of_kwargs ds ;;
    pack_name <- getitem eval_data "pack_name" ;;
    pack_name <- as_str pack_name ;;
    overall_score <- getitem eval_data "overall_score" ;;
    overall_score <- as_float overall_score ;;
    critical_issues <- getitem eval_data "critical_issues" ;;
    critical_issues <- as_str_list critical_issues ;;
    selected_images <- getitem eval_data "selected_images" ;;
    selected_images <- as_str_dict selected_images ;;
    deltas <- getitem eval_data "deltas" ;;
    deltas <- as_str_list deltas ;;
    passed <- getitem eval_data "automated_checks_passed" ;;
    passed <- as_bool passed ;;
    Ok (Some (mkPackEvaluation pack_name overall_score dimension_scores
                critical_issues selected_images deltas passed))
  else Ok None.

Definition load_round (r_data : json) : result RoundState :=
  eval_data <- get r_data "evaluation" JNull ;;
  evaluation <- load_evaluation eval_data ;;
  round_num <- getitem r_data "round_num" ;;
  round_num <- as_int round_num ;;
  timestamp <- getitem r_data "timestamp" ;;
  timestamp <- as_str timestamp ;;
  prompts_used <- getitem r_data "prompts_used" ;;
  prompts_used <- as_str_dict prompts_used ;;
  variants_generated <- get r_data "variants_generated" (JInt 0) ;;
  variants_generated <- as_int variants_generated ;;
  cost_usd <- get r_data "cost_usd" (JFloat 0) ;;
  cost_usd <- as_float cost_usd ;;
  Ok (mkRoundState round_num timestamp prompts_used evaluation
        variants_generated cost_usd).

(** The part of [load] after [json.load]. *)
Definition load_data (data : json) : result WorkflowState :=
  rounds_data <- get data "rounds" (JList []) ;;
  rounds_data <- as_list rounds_data ;;
  rounds <- map_result load_round rounds_data ;;
  pack_name <- getitem data "pack_name" ;;
  pack_name <- as_str pack_name ;;
  started_at <- getitem data "started_at" ;;
  started_at <- as_str started_at ;;
  max_rounds <- getitem data "max_rounds" ;;
  max_rounds <- as_int max_rounds ;;
  quality_threshold <- get data "quality_threshold" (JFloat (85 # 10)) ;;
  quality_threshold <- as_float quality_threshold ;;
  completed <- get data "completed" (JBool false) ;;
  completed <- as_bool completed ;;
  completion_reason <- get data "completion_reason" (JStr "") ;;
  completion_reason <- as_str completion_reason ;;
  Ok (mkWorkflowState pack_name started_at max_rounds quality_threshold rounds
        completed completion_reason).

Definition load (pack_dir : string) (fs : file_system)
    : result (option WorkflowState) :=
  let state_file := path_join (path_join pack_dir "qa") "workflow_state.json" in
  match fs state_file with
  | None => Ok None
  | Some Dir => Raise (IsADirectoryError state_file)
  | Some (TextFile _) => Raise (JSONDecodeError "Expecting value")
  | Some (JsonFile data) =>
      state <- load_data data ;;
      Ok (Some state)
  end.

(** ** The critic ([agents/critic.py]) *)

Module Str.

(** The ASCII characters [str.strip] removes. *)
Definition is_space (c : ascii) : bool :=
  let n := nat_of_ascii c in
  (Nat.leb 9 n && Nat.leb n 13) || (Nat.leb 28 n && Nat.leb n 32).

Fixpoint lstrip (s : string) : string :=
  match s with
  | EmptyString => EmptyString
  | String c rest => if is_space c then lstrip rest else s
  end.

Fixpoint rstrip (s : string) : string :=
  match s with
  | EmptyString => EmptyString
  | String c rest =>
      match rstrip rest with
      | EmptyString => if is_space c then EmptyString else String c EmptyString
      | rest' => String c rest'
      end
  end.

(** [s.strip()]. *)
Definition strip (s : string) : string := rstrip (lstrip s).

(** [s[start:]], for [0 <= start]. *)
Fixpoint drop (start : nat) (s : string) : string :=
  match start, s with
  | O, _ => s
  | S n, EmptyString => EmptyString
  | S n, String _ rest => drop n rest
  end.

(** [s[:stop]], for [0 <= stop]. *)
Fixpoint take (stop : nat) (s : string) : string :=
  match stop, s with
  | O, _ => EmptyString
  | S n, EmptyString => EmptyString
  | S n, String c rest => String c (take n rest)
  end.

(** [s[start:stop]], for [0 <= start] and [0 <= stop]. *)
Definition slice (s : string) (start stop : nat) : string :=
  take (stop - start) (drop start s).

(** Offset of the first occurrence of [needle] in [hay]. *)
Fixpoint find_offset (needle hay : string) : option nat :=
  if String.prefix needle hay then Some O
  else match hay with
       | EmptyString => None
       | String _ rest => option_map S (find_offset needle rest)
       end.

(** [hay.find(needle, start)]; [None] stands for -1. *)
Definition find (needle hay : string) (start : nat) : option nat :=
  if Nat.ltb (String.length hay) start then None
  else option_map (Nat.add start) (find_offset needle (drop start hay)).

(** [s.split(sep)] for a one-character separator. *)
Fixpoint split (sep : ascii) (s : string) : list string :=
  match s with
  | EmptyString => [EmptyString]
  | String c rest =>
      if Ascii.eqb c sep then EmptyString :: split sep rest
      else match split sep rest with
           | [] => [String c EmptyString]
           | part :: parts => String c part :: parts
           end
  end.

(** [sep.join(parts)]. *)
Fixpoint join (sep : string) (parts : list string) : string :=
  match parts with
  | [] => EmptyString
  | [p] => p
  | p :: rest => p ++ sep ++ join sep rest
  end.

End Str.

Section Critic.

(** [json.loads]: the decoded document, or the message of the
    [JSONDecodeError] it raises. *)
Variable json_loads : string -> json + string.

(** [str(x)] for a [float], as in the stopping conditions. *)
Variable repr_float : Q -> string.

Definition parse_critic_response (response_text : string) : result json :=
  let text := Str.strip response_text in
  let text :=
    if contains "```json" text then
      match Str.find "```json" text 0 with
      | Some i =>
          let start := (i + 7)%nat in
          match Str.find "```" text start with
          | Some stop => Str.strip (Str.slice text start stop)
          | None => text
          end
      | None => text
      end
    else if contains "```" text then
      match Str.find "```" text 0 with
      | Some i =>
          let start := (i + 3)%nat in
          match Str.find "```" text start with
          | Some stop => Str.strip (Str.slice text start stop)
          | None => text
          end
      | None => text
      end
    else text in
  match json_loads text with
  | inl parsed => Ok parsed
  | inr e => Raise (ValueError ("Critic response is not valid JSON: " ++ e))
  end.

(** What one call of [evaluate_pack] gets from outside the repository: the
    value of the environment variable, and the outcome of preparing the
    request and calling the vision model (the response text, or the
    exception that propagates). *)
Record CriticEnv : Type := mkCriticEnv {
  api_key : option string;
  api_response : result string
}.

(** The screen type of an image: its stem without the last [_]-separated
    part. *)
Definition screen_type_of (stem : string) : string :=
  let parts := Str.split "_" stem in
  if len parts >=? 2 then Str.join "_" (removelast parts) else stem.

(** The body of the grouping loop of [evaluate_pack]. *)
Definition group_step (images_to_evaluate : list (string * list ImageFile))
    (img : ImageFile) : list (string * list ImageFile) :=
  let screen_type := screen_type_of (img_stem img) in
  let d := match Dict.lookup images_to_evaluate screen_type with
           | None => Dict.set images_to_evaluate screen_type []
           | Some _ => images_to_evaluate
           end in
  match Dict.lookup d screen_type with
  | Some paths => Dict.set d screen_type (append paths img)
  | None => d
  end.

(** [{screen_type: paths[0].name ...}]; every list of the grouping holds an
    image. *)
Definition first_names (images_to_evaluate : list (string * list ImageFile))
    : list (string * string) :=
  flat_map (fun kv => match snd kv with
                      | img :: _ => [(fst kv, img_name img)]
                      | [] => []
                      end) images_to_evaluate.

Definition _create_mock_evaluation (pack_name : string)
    (images_to_evaluate : list (string * list ImageFile))
    (automated_score : Q) (automated_issues critical_issues : list string)
    : PackEvaluation :=
  let selected_images := first_names images_to_evaluate in
  let dimension_scores :=
    [mkEvaluationScore "brand_consistency" (75 # 10) (30 # 100)
       "[DRY RUN] Mock evaluation - brand consistency not assessed" [];
     mkEvaluationScore "technical_quality"
       (automated_score * (7 # 10) + 7 * (3 # 10))%Q (25 # 100)
       ("[DRY RUN] Automated checks score: " ++ repr_float automated_score ++
        "/10")
       automated_issues;
     mkEvaluationScore "etsy_compliance" 9 (20 # 100)
       "[DRY RUN] Mock evaluation - compliance not assessed" [];
     mkEvaluationScore "visual_appeal" 7 (25 # 100)
       "[DRY RUN] Mock evaluation - visual appeal not assessed" []] in
  let overall_score := calculate_overall_score dimension_scores in
  mkPackEvaluation pack_name overall_score dimension_scores critical_issues
    selected_images
    ["[DRY RUN] This is a mock evaluation";
     "[DRY RUN] Run without --dry-run for real AI evaluation"]
    (len automated_issues =? 0).

Definition _create_fallback_evaluation (pack_name : string)
    (images_to_evaluate : list (string * list ImageFile))
    (automated_score : Q) (automated_issues critical_issues : list string)
    : PackEvaluation :=
  let selected_images := first_names images_to_evaluate in
  let dimension_scores :=
    [mkEvaluationScore "technical_quality" automated_score 1
       "Automated checks only (Vision model parse failed)" automated_issues] in
  mkPackEvaluation pack_name automated_score dimension_scores critical_issues
    selected_images
    ["ERROR: Failed to parse Critic response, only automated checks applied"]
    (len automated_issues =? 0).

Definition dimension_of_response (dim_data : json) : result EvaluationScore :=
  d <- getitem dim_data "dimension" ;;
  d <- as_str d ;;
  sc <- getitem dim_data "score" ;;
  sc <- as_float sc ;;
  w <- getitem dim_data "weight" ;;
  w <- as_float w ;;
  j <- getitem dim_data "justification" ;;
  j <- as_str j ;;
  i <- get dim_data "issues" (JList []) ;;
  i <- as_str_list i ;;
  Ok (mkEvaluationScore d sc w j i).

Definition _build_evaluation_from_response (pack_name : string) (parsed : json)
    (automated_score : Q) (automated_issues critical_issues : list string)
    : result PackEvaluation :=
  ds <- get parsed "dimension_scores" (JList []) ;;
  ds <- as_list ds ;;
  dimension_scores <- map_result dimension_of_response ds ;;
  more <- get parsed "critical_issues" (JList []) ;;
  more <- as_str_list more ;;
  let all_critical_issues := (critical_issues ++ more)%list in
  overall <- get parsed "overall_score" (JFloat automated_score) ;;
  overall <- as_float overall ;;
  selected <- get parsed "selected_images" (JDict []) ;;
  selected <- as_str_dict selected ;;
  deltas <- get parsed "deltas" (JList []) ;;
  deltas <- as_str_list deltas ;;
  Ok (mkPackEvaluation pack_name overall dimension_scores all_critical_issues
        selected deltas (len automated_issues =? 0)).

Definition evaluate_pack (pack_name : string) (pack_dir : PackDir)
    (env : CriticEnv) (dry_run : bool) : result PackEvaluation :=
  let has_key := match api_key env with
                 | Some k => negb (String.eqb k "")
                 | None => false
                 end in
  if negb has_key && negb dry_run then
    Raise (ValueError ("OPENAI_API_KEY environment variable not set. " ++
                       "Set it to use the Critic agent."))
  else
    let final_dir := path_join (pack_path pack_dir) "03_final" in
    match final_pngs pack_dir with
    | None =>
        Raise (FileNotFoundError
                 ("Final images directory not found: " ++ final_dir))
    | Some pngs =>
        let images_to_evaluate :=
          fold_left group_step (sorted_by_name pngs) [] in
        if negb (truthy_list images_to_evaluate) then
          Raise (FileNotFoundError ("No PNG images found in " ++ final_dir))
        else
          let '(automated_score, automated_issues) :=
            compute_automated_score pack_dir in
          let critical_issues := check_critical_issues pack_dir in
          if dry_run then
            Ok (_create_mock_evaluation pack_name images_to_evaluate
                  automated_score automated_issues critical_issues)
          else
            response_text <- api_response env ;;
            match parse_critic_response response_text with
            | Raise (ValueError _) =>
                Ok (_create_fallback_evaluation pack_name images_to_evaluate
                      automated_score automated_issues critical_issues)
            | Raise e => Raise e
            | Ok parsed =>
                _build_evaluation_from_response pack_name parsed
                  automated_score automated_issues critical_issues
            end
    end.

End Critic.

(** ** The workflow driver ([multi_agent/orchestrator.py]) *)

Section Driver.

Variable repr_float : Q -> string.

(** Everything outside the workflow subsystem that a run touches: the
    clock, the configuration file, the generation, post-processing and
    evaluation collaborators, the report files. *)
Variable World : Type.

(** What the collaborator calls of one round hand back to [run_round]: the
    time stamp, the prompts of the configuration and the evaluation. *)
Record RoundOutput : Type := mkRoundOutput {
  out_timestamp : string;
  out_prompts : list (string * string);
  out_evaluation : PackEvaluation
}.

(** The collaborator calls of [run_round] for a round number and a workflow
    state: the new world, and their results or the exception one of them
    raised. *)
Variable collaborators :
  Z -> WorkflowState -> World -> World * result RoundOutput.

(** The clock reading of [create_new]. *)
Variable clock : World -> string.

(** The stages after the loop (deliverables, optional upload). *)
Variable deliverables : WorkflowState -> World -> World * result unit.

Definition run_round (round_num : Z) (workflow_state : WorkflowState)
    (w : World) : World * result RoundState :=
  let num_variants :=
    determine_variant_count round_num (max_rounds workflow_state) in
  let '(w1, r) := collaborators round_num workflow_state w in
  match r with
  | Raise e => (w1, Raise e)
  | Ok out =>
      match check_stopping_conditions repr_float workflow_state with
      | Raise e => (w1, Raise e)
      | Ok _ =>
          (w1, Ok (mkRoundState round_num (out_timestamp out)
                     (out_prompts out) (Some (out_evaluation out))
                     num_variants 0))
      end
  end.

(** How a run of the driver ends: normally, by an exception, or (in the
    model only) with the iteration budget used up. Each case carries the
    workflow state object, the file system and the world at that point. *)
Inductive outcome : Type :=
| Finished (ws : WorkflowState) (fs : file_system) (w : World)
| Raised (e : exn) (ws : WorkflowState) (fs : file_system) (w : World)
| OutOfFuel (ws : WorkflowState) (fs : file_system) (w : World).

Definition outcome_state (o : outcome) : WorkflowState :=
  match o with
  | Finished ws _ _ | Raised _ ws _ _ | OutOfFuel ws _ _ => ws
  end.

Definition outcome_fs (o : outcome) : file_system :=
  match o with
  | Finished _ fs _ | Raised _ _ fs _ | OutOfFuel _ fs _ => fs
  end.

(** The [while True] loop of [run_multi_agent_workflow]; [fuel] bounds the
    number of iterations. *)
Fixpoint main_loop (fuel : nat) (pack_dir : string)
    (workflow_state : WorkflowState) (fs : file_system) (w : World)
    : outcome :=
  match fuel with
  | O => OutOfFuel workflow_state fs w
  | S fuel' =>
      let current_round := current_round workflow_state in
      let '(should_continue, reason) :=
        should_continue repr_float workflow_state in
      if negb should_continue then
        Finished (finalize workflow_state reason) fs w
      else
        match run_round current_round workflow_state w with
        | (w1, Raise e) => Raised e workflow_state fs w1
        | (w1, Ok round_state) =>
            let workflow_state1 := add_round workflow_state round_state in
            match save workflow_state1 pack_dir fs with
            | Raise e => Raised e workflow_state1 fs w1
            | Ok fs1 =>
                match check_stopping_conditions repr_float workflow_state1 with
                | Raise e => Raised e workflow_state1 fs1 w1
                | Ok (should_stop, decision, reason) =>
                    if should_stop then
                      Finished (finalize workflow_state1
                                  (decision ++ ": " ++ reason)) fs1 w1
                    else main_loop fuel' pack_dir workflow_state1 fs1 w1
                end
            end
        end
  end.

Definition exists_path (fs : file_system) (path : string) : bool :=
  match fs path with
  | Some _ => true
  | None => false
  end.

(** [run_multi_agent_workflow]. An exception raised before a workflow state
    exists is a [Raise]. *)
Definition run_multi_agent_workflow (fuel : nat) (packs_root : string)
    (pack_name : string) (max_rounds : Z) (quality_threshold : Q)
    (fs : file_system) (w : World) : result outcome :=
  let pack_dir := path_join packs_root pack_name in
  if negb (exists_path fs pack_dir) then
    Raise (FileNotFoundError ("Pack directory not found: " ++ pack_dir))
  else
    let config_path := path_join pack_dir "config.yaml" in
    if negb (exists_path fs config_path) then
      Raise (FileNotFoundError ("Config file not found: " ++ config_path))
    else
      loaded <- load pack_dir fs ;;
      let workflow_state :=
        match loaded with
        | Some ws => ws
        | None => create_new (clock w) pack_name max_rounds quality_threshold
        end in
      match main_loop fuel pack_dir workflow_state fs w with
      | Finished ws1 fs1 w1 =>
          match save ws1 pack_dir fs1 with
          | Raise e => Ok (Raised e ws1 fs1 w1)
          | Ok fs2 =>
              match deliverables ws1 w1 with
              | (w2, Raise e) => Ok (Raised e ws1 fs2 w2)
              | (w2, Ok _) => Ok (Finished ws1 fs2 w2)
              end
          end
      | other => Ok other
      end.

(** The workflow state object with another list of rounds. *)
Definition with_rounds (ws : WorkflowState) (rs : list RoundState)
    : WorkflowState :=
  mkWorkflowState (ws_pack_name ws) (started_at ws) (max_rounds ws)
                  (quality_threshold ws) rs (completed ws)
                  (completion_reason ws).

(** The workflow states the driver works on: a fresh one, the one the loop
    has reached after some number of iterations (or at its end) from such a
    state, and the one loaded from what [save] wrote of such a state. *)
Inductive driver_state : WorkflowState -> Prop :=
| driver_state_new (now pack_name : string) (max_rounds : Z)
    (quality_threshold : Q) :
    driver_state (create_new now pack_name max_rounds quality_threshold)
| driver_state_loop (fuel : nat) (pack_dir : string) (ws : WorkflowState)
    (fs : file_system) (w : World) :
    driver_state ws ->
    driver_state (outcome_state (main_loop fuel pack_dir ws fs w))
| driver_state_load (pack_dir : string) (ws loaded : WorkflowState)
    (fs fs' : file_system) :
    driver_state ws ->
    save ws pack_dir fs = Ok fs' ->
    load pack_dir fs' = Ok (Some loaded) ->
    driver_state loaded.

End Driver.

(** ** Auxiliary definitions of the properties *)

(** The characters of a decimal numeral. *)
Definition numeral_char (c : ascii) : bool :=
  let n := nat_of_ascii c in
  (Nat.leb 48 n && Nat.leb n 57) || Nat.eqb n 45.

Definition numeral (s : string) : Prop :=
  forall c, occurs c s = true -> numeral_char c = true.

(** The rounds of a state are numbered 1, 2, 3, ... in order. *)
Definition well_numbered (ws : WorkflowState) : Prop :=
  forall i r, nth_error (rounds ws) i = Some r -> round_num r = Z.of_nat i + 1.

(** A state with one round, used for the concrete runs of the properties. *)
Definition one_round_state (max_rounds : Z) (quality_threshold : Q)
    (overall : Q) (critical : list string) : WorkflowState :=
  mkWorkflowState "demo" "2025-01-01T00:00:00+00:00" max_rounds
    quality_threshold
    [mkRoundState 1 "2025-01-01T00:01:00+00:00" []
       (Some (mkPackEvaluation "demo" overall [] critical [] [] true)) 3 0]
    false "".



(** An overlay of the wrong resolution, and a pack holding [n] of them next
    to one good overlay. *)
Definition bad_overlay : ImageFile :=
  mkImageFile "starting_02.png" "starting_02" (Ok (1280, 720)) 4096.

Definition good_overlay : ImageFile :=
  mkImageFile "starting_01.png" "starting_01" (Ok (1920, 1080)) 4096.

Definition pack_with_bad_overlays (n : nat) : PackDir :=
  mkPackDir "packs/demo" (Some (good_overlay :: repeat bad_overlay n)) None None.

(** *** A scripted world for concrete runs

    The world is the list of the evaluations still to come: each round takes
    the next one; with none left the evaluation collaborator raises. *)
Definition script_evaluation (overall : Q) (critical : list string)
    : PackEvaluation :=
  mkPackEvaluation "demo" overall
    [mkEvaluationScore "technical_quality" overall 1 "scripted" []]
    critical [("starting", "starting_01.png")] ["raise contrast"]
    (negb (truthy_list critical)).

Definition script_collaborators (round_num : Z) (ws : WorkflowState)
    (w : list PackEvaluation) : list PackEvaluation * result RoundOutput :=
  match w with
  | [] => ([], Raise (OtherError "no images generated"))
  | ev :: rest =>
      (rest, Ok (mkRoundOutput ("round " ++ str_int round_num)
                   [("starting", "a starting screen")] ev))
  end.

Definition script_clock (w : list PackEvaluation) : string :=
  "2025-01-01T00:00:00+00:00".

Definition script_deliverables (ws : WorkflowState) (w : list PackEvaluation)
    : list PackEvaluation * result unit := (w, Ok tt).

(** A file system holding the pack directory of "demo" and its
    configuration file. *)
Definition demo_fs : file_system :=
  fun path =>
    if String.eqb path "packs/demo" then Some Dir
    else if String.eqb path "packs" then Some Dir
    else if String.eqb path "packs/demo/config.yaml"
         then Some (TextFile "theme: neon") else None.

Definition script_loop (fuel : nat) (ws : WorkflowState)
    (w : list PackEvaluation) : outcome (list PackEvaluation) :=
  main_loop fmt_1f (list PackEvaluation) script_collaborators fuel
    "packs/demo" ws demo_fs w.

(** A state with two rounds, the first without evaluation. *)
Definition sample_state : WorkflowState :=
  mkWorkflowState "demo" "2025-01-01T00:00:00+00:00" 3 (85 # 10)
    [mkRoundState 1 "2025-01-01T00:01:00+00:00"
       [("starting", "a starting screen")] None 3 0;
     mkRoundState 2 "2025-01-01T00:02:00+00:00"
       [("starting", "a starting screen"); ("ending", "an ending screen")]
       (Some (mkPackEvaluation "demo" (72 # 10)
                [mkEvaluationScore "brand_consistency" 8 (3 # 10) "on brand"
                   ["logo too small"];
                 mkEvaluationScore "technical_quality" 6 (2 # 10) "soft" []]
                ["oversized archive"] [("starting", "starting_01.png")]
                ["sharpen"] false))
       2 (1 # 4)]
    true "BLOCKED: BLOCKED by 1 critical issue(s)".

(** The two messages of [validate_etsy_listings] about the size of a
    listing photo. *)
Definition oversize_warning (img : ImageFile) : string :=
  img_name img ++ ": Size " ++ fmt_1f (size_mb (img_st_size img)) ++
  "MB > 1MB " ++ "(Etsy recommends ≤1MB for faster loading)".

Definition oversize_error (img : ImageFile) : string :=
  img_name img ++ ": Size " ++ fmt_1f (size_mb (img_st_size img)) ++
  "MB exceeds Etsy's 2MB limit".

(** What one photo adds to the errors and to the warnings. *)
Definition photo_report (entry : Z * ImageFile) : list string * list string :=
  listing_step ([], []) entry.

(** A listing photo of 3 MiB that the imaging library cannot open, and one
    of the same size that it can. *)
Definition corrupt_photo : ImageFile :=
  mkImageFile "01_hero.jpg" "01_hero"
    (Raise (OtherError "cannot identify image file")) 3145728.

Definition heavy_photo : ImageFile :=
  mkImageFile "01_hero.jpg" "01_hero" (Ok (3000, 2400)) 3145728.

Definition pack_with_listing (photo : ImageFile) : PackDir :=
  mkPackDir "packs/demo" (Some [good_overlay]) (Some [photo]) None.

(** A decoder that rejects every text, and a critic environment whose
    response is not JSON. *)
Definition reject_all (text : string) : json + string :=
  inr "Expecting value: line 1 column 1 (char 0)".

Definition chatty_env : CriticEnv :=
  mkCriticEnv (Some "sk-test") (Ok "I am sorry, I cannot rate these images.").

(** A decoder that knows the empty object only. *)
Definition loads_empty_object (text : string) : json + string :=
  if String.eqb text "{}" then inl (JDict []) else inr "Expecting value".

(** A line feed. *)
Definition nl : string := String (ascii_of_nat 10) "".

(** ** Further code of the workflow subsystem *)

(** *** Vision messages ([prepare_vision_messages], [agents/critic.py]) *)

(** The inner loop over the paths of one screen type: append, then stop as
    soon as the limit is reached. *)
Fixpoint take_paths (max_images : Z) (screen_type : string)
    (paths : list ImageFile) (all_images : list (string * ImageFile))
    : list (string * ImageFile) :=
  match paths with
  | [] => all_images
  | path :: rest =>
      let all_images := append all_images (screen_type, path) in
      if len all_images >=? max_images then all_images
      else take_paths max_images screen_type rest all_images
  end.

(** The outer loop over the screen types. *)
Fixpoint take_images (max_images : Z)
    (images_to_evaluate : list (string * list ImageFile))
    (all_images : list (string * ImageFile)) : list (string * ImageFile) :=
  match images_to_evaluate with
  | [] => all_images
  | (screen_type, paths) :: rest =>
      let all_images := take_paths max_images screen_type paths all_images in
      if len all_images >=? max_images then all_images
      else take_images max_images rest all_images
  end.

Section VisionMessages.

(** [encode_image_base64]: the base64 text of the bytes of the file, or the
    exception reading it raises. *)
Variable encode_image_base64 : ImageFile -> result string.

(** The body of the loop that adds the images to the content. *)
Definition add_image_part (content_parts : list json)
    (entry : string * ImageFile) : list json :=
  match encode_image_base64 (snd entry) with
  | Ok image_b64 =>
      append content_parts
        (JDict [("type", JStr "image_url");
                ("image_url",
                 JDict [("url", JStr ("data:image/png;base64," ++ image_b64));
                        ("detail", JStr "low")])])
  | Raise _ => content_parts
  end.

Definition prepare_vision_messages (system_prompt evaluation_prompt : string)
    (images_to_evaluate : list (string * list ImageFile)) (max_images : Z)
    : list json :=
  let messages :=
    [JDict [("role", JStr "system"); ("content", JStr system_prompt)]] in
  let content_parts :=
    [JDict [("type", JStr "text"); ("text", JStr evaluation_prompt)]] in
  let all_images := take_images max_images images_to_evaluate [] in
  let content_parts := fold_left add_image_part all_images content_parts in
  append messages
    (JDict [("role", JStr "user"); ("content", JList content_parts)]).

End VisionMessages.

(** *** The round brief ([prepare_round_brief], [agents/pm.py]) *)

(** [l[-2]] when [l] has two items. *)
Fixpoint second_last_item {A : Type} (l : list A) : option A :=
  match l with
  | [] => None
  | [_] => None
  | [x; _] => Some x
  | _ :: rest => second_last_item rest
  end.

Section RoundBrief.

Variable repr_float : Q -> string.

(** [theme] is [config.theme]. The two last scores of the trend exist when
    the trend has two entries. *)
Definition prepare_round_brief (round_num : Z) (theme : string)
    (workflow_state : WorkflowState) : list (string * string) :=
  let brief :=
    [("round_num", str_int round_num);
     ("pack_name", ws_pack_name workflow_state);
     ("theme", theme);
     ("max_rounds", str_int (max_rounds workflow_state));
     ("threshold", repr_float (quality_threshold workflow_state))] in
  if round_num =? 1 then
    let brief := Dict.set brief "context"
      "Initial generation round. Focus on establishing baseline quality." in
    let brief := Dict.set brief "previous_score" "N/A" in
    Dict.set brief "deltas" "None (first round)"
  else
    match latest_evaluation workflow_state with
    | Some prev_eval =>
        let brief := Dict.set brief "context"
          ("Improvement round. Previous score: " ++
           fmt_1f (overall_score prev_eval) ++ "/10") in
        let brief := Dict.set brief "previous_score"
          (fmt_1f (overall_score prev_eval)) in
        let brief := Dict.set brief "deltas"
          (Str.join nl (map (fun d => "  - " ++ d) (deltas prev_eval))) in
        let trend := score_trend workflow_state in
        if len trend >=? 2 then
          match last_item trend, second_last_item trend with
          | Some t1, Some t2 =>
              let delta := (t1 - t2)%Q in
              Dict.set brief "score_trend"
                (if ge delta 0 then "+" ++ fmt_1f delta else fmt_1f delta)
          | _, _ => brief
          end
        else Dict.set brief "score_trend" "N/A"
    | None =>
        let brief := Dict.set brief "context"
          "Continuing workflow (no previous evaluation)" in
        let brief := Dict.set brief "previous_score" "N/A" in
        Dict.set brief "deltas" "None available"
    end.

End RoundBrief.

(** *** Pricing ([calculate_price], [etsy/listing_metadata.py]) *)

(** [round(x, 2)]: two digits after the point, half to even. *)
Definition round_2 (x : Q) : Q :=
  Qmake (round_half_even (Qnum x * 100) (Z.pos (Qden x))) 100.

Definition calculate_price (pack_name : string)
    (workflow_state : option WorkflowState) (base_price : Q) : result Q :=
  let price := base_price in
  price <-
    match workflow_state with
    | Some ws =>
        match last_item (rounds ws) with
        | Some last_round =>
            match evaluation last_round with
            | Some ev =>
                let final_score := overall_score ev in
                if ge final_score 9 then Ok (price + 5)%Q
                else if ge final_score (85 # 10) then Ok (price + 3)%Q
                else if ge final_score 8 then Ok (price + 1)%Q
                else Ok price
            | None =>
                Raise (AttributeError
                  "'NoneType' object has no attribute 'overall_score'")
            end
        | None => Ok price
        end
    | None => Ok price
    end ;;
  let premium_keywords := ["premium"; "pro"; "deluxe"; "ultimate"] in
  let price :=
    if existsb (fun kw => contains kw (lower pack_name)) premium_keywords
    then (price + 2)%Q else price in
  Ok (round_2 price).

(** *** The final banner of the command line ([multi_agent_build], [cli.py]) *)

Definition final_banner (completion_reason : string) : string :=
  if contains "PASS" completion_reason then "[PASS] Quality threshold met!"
  else if contains "BLOCKED" completion_reason
  then "[BLOCKED] Critical issues detected"
  else "[CONTINUE] Max rounds reached".

(** ** Auxiliary definitions of the further properties *)

(** An overlay that opens at the deliverable resolution. *)
Definition overlay_ok (img : ImageFile) : bool :=
  match img_open img with
  | Ok (width, height) => (width =? 1920) && (height =? 1080)
  | Raise _ => false
  end.

(** A listing photo, at its index in name order, that draws no error: it
    opens, both sides are at least 2000 pixels, it is not portrait when it
    is the first, and it weighs at most 2 MiB. *)
Definition listing_ok (entry : Z * ImageFile) : bool :=
  match img_open (snd entry) with
  | Ok (width, height) =>
      (2000 <=? width) && (2000 <=? height) &&
      ((negb (fst entry =? 0)) || (height <=? width)) &&
      (img_st_size (snd entry) <=? 2097152)
  | Raise _ => false
  end.

(** The images of a grouping, screen type by screen type. *)
Definition flatten_images (d : list (string * list ImageFile))
    : list (string * ImageFile) :=
  flat_map (fun kv => map (pair (fst kv)) (snd kv)) d.

(** A round as [run_round] records it under a round budget. *)
Definition recorded_round (max_rounds : Z) (r : RoundState) : Prop :=
  (exists ev, evaluation r = Some ev) /\
  variants_generated r = determine_variant_count (round_num r) max_rounds /\
  cost_usd r = 0%Q.

(** A pack with one overlay of the wrong resolution and an archive of
    21 MiB. *)
Definition flawed_pack : PackDir :=
  mkPackDir "packs/demo" (Some [good_overlay; bad_overlay]) None
    (Some [mkZipFile "overlays.zip" 22020096]).

(** Three images of two screen types. *)
Definition three_images : list ImageFile :=
  [mkImageFile "ending_01.png" "ending_01" (Ok (1920, 1080)) 4096;
   mkImageFile "starting_01.png" "starting_01" (Ok (1920, 1080)) 4096;
   mkImageFile "starting_02.png" "starting_02" (Ok (1920, 1080)) 4096].

(** The issues of the validators about a wrong resolution and about an
    oversized archive. *)
Definition wrong_resolution_issue (img : ImageFile) (width height : Z)
    : string :=
  "Overlay wrong resolution: " ++ img_name img ++ " is " ++
  str_int width ++ "x" ++ str_int height ++ ", expected 1920x1080".

Definition oversized_archive_issue (z : ZipFile) : string :=
  zip_name z ++ ": Size " ++ fmt_1f (size_mb (zip_st_size z)) ++
  "MB exceeds Etsy's 20MB limit".

(** The dry-run evaluation of [flawed_pack]. *)
Definition flawed_mock_evaluation : PackEvaluation :=
  _create_mock_evaluation fmt_1f "demo"
    (fold_left group_step (sorted_by_name [good_overlay; bad_overlay]) [])
    (fst (compute_automated_score flawed_pack))
    (snd (compute_automated_score flawed_pack))
    (check_critical_issues flawed_pack).

(** A state document of an earlier layout: the three required keys only. *)
Definition legacy_document : json :=
  JDict [("pack_name", JStr "demo");
         ("started_at", JStr "2025-01-01T00:00:00+00:00");
         ("max_rounds", JInt 3)].


(** The invariant of the grouping loop after the images [seen]. *)
Definition grouped (d : list (string * list ImageFile))
    (seen : list ImageFile) : Prop :=
  NoDup (map fst d) /\
  Forall (fun kv => snd kv <> []) d /\
  Permutation (flatten_images d)
    (map (fun img => (screen_type_of (img_stem img), img)) seen).

(** * Properties *)

(** ** Strings *)

Lemma occurs_app (c : ascii) (a b : string) :
  occurs c (a ++ b) = occurs c a || occurs c b.
Proof.
  induction a as [|d a IH]; simpl; [reflexivity|].
  rewrite IH. now rewrite orb_assoc.
Qed.

Lemma prefix_first_absent (c : ascii) (needle hay : string) :
  occurs c hay = false -> String.prefix (String c needle) hay = false.
Proof.
  destruct hay as [|d hay]; simpl; [reflexivity|].
  intros H. apply orb_false_iff in H as [H _].
  destruct (ascii_dec c d) as [->|Hne].
  - now rewrite Ascii.eqb_refl in H.
  - reflexivity.
Qed.

(** A needle whose first character does not occur is not contained. *)
Lemma contains_first_absent (c : ascii) (needle hay : string) :
  occurs c hay = false -> contains (String c needle) hay = false.
Proof.
  induction hay as [|d hay IH]; intros H.
  - reflexivity.
  - cbn [contains]. rewrite (prefix_first_absent c needle (String d hay) H).
    simpl in H. apply orb_false_iff in H as [_ H]. simpl. now apply IH.
Qed.


Lemma lower_app (a b : string) : lower (a ++ b) = lower a ++ lower b.
Proof. induction a as [|c a IH]; simpl; [reflexivity | now rewrite IH]. Qed.


Lemma numeral_cons (d : ascii) (s : string) :
  numeral_char d = true -> numeral s -> numeral (String d s).
Proof.
  intros Hd Hs c H. simpl in H. apply orb_true_iff in H as [H|H].
  - apply Ascii.eqb_eq in H. now subst.
  - now apply Hs.
Qed.

Lemma numeral_empty : numeral "".
Proof. intros c H. discriminate. Qed.

Lemma numeral_of_uint (u : Decimal.uint) : numeral (NilEmpty.string_of_uint u).
Proof.
  induction u; simpl;
    first [apply numeral_empty | apply numeral_cons; [reflexivity | assumption]].
Qed.

Lemma numeral_str_int (n : Z) : numeral (str_int n).
Proof.
  unfold str_int, NilZero.string_of_int, NilZero.string_of_uint.
  destruct (Z.to_int n) as [u|u].
  - destruct u; try (apply numeral_cons; [reflexivity | apply numeral_of_uint]).
    apply numeral_cons; [reflexivity | apply numeral_empty].
  - apply numeral_cons; [reflexivity|].
    destruct u; try (apply numeral_cons; [reflexivity | apply numeral_of_uint]).
    apply numeral_cons; [reflexivity | apply numeral_empty].
Qed.

Lemma numeral_absent (c : ascii) (s : string) :
  numeral s -> numeral_char c = false -> occurs c s = false.
Proof.
  intros Hs Hc. destruct (occurs c s) eqn:E; [|reflexivity].
  apply Hs in E. congruence.
Qed.

Lemma lower_numeral (s : string) : numeral s -> lower s = s.
Proof.
  induction s as [|c s IH]; intros H; [reflexivity|].
  simpl. rewrite IH.
  - f_equal. assert (Hc : numeral_char c = true).
    { apply H. simpl. now rewrite Ascii.eqb_refl. }
    unfold numeral_char in Hc. unfold lower_ascii.
    destruct (Nat.leb 65 (nat_of_ascii c) && Nat.leb (nat_of_ascii c) 90) eqn:E;
      [|reflexivity].
    apply andb_true_iff in E as [E1 E2].
    apply Nat.leb_le in E1. apply Nat.leb_le in E2.
    apply orb_true_iff in Hc as [Hc|Hc].
    + apply andb_true_iff in Hc as [_ Hc]. apply Nat.leb_le in Hc. lia.
    + apply Nat.eqb_eq in Hc. lia.
  - intros d Hd. apply H. simpl. rewrite Hd. now rewrite orb_true_r.
Qed.

(** *** The primitives on concrete inputs *)

Example fmt_1f_examples :
  fmt_1f (75 # 10) = "7.5" /\ fmt_1f 7 = "7.0" /\ fmt_1f (825 # 100) = "8.2" /\
  fmt_1f (875 # 100) = "8.8" /\ fmt_1f (-(1 # 100)) = "-0.0" /\
  fmt_1f (size_mb 3145728) = "3.0" /\ fmt_1f (size_mb 2202009) = "2.1" /\
  str_int (-12) = "-12" /\ str_int 0 = "0" /\ str_int 1920 = "1920".
Proof. repeat split; reflexivity. Qed.

Example string_examples :
  contains "wrong resolution" (lower "Overlay Wrong Resolution: a.png") = true /\
  contains "20mb" (lower "a.zip: Size 21.0MB exceeds Etsy's 20MB limit") = true /\
  contains "PASS" "Max rounds (3) reached" = false /\
  Str.strip ("  " ++ nl ++ "{}" ++ nl ++ " ") = "{}" /\
  Str.find "```" "a```b```" 4 = Some 5%nat /\
  Str.find "```" "a```b" 4 = None /\
  Str.split "_" "be_right_back_02" = ["be"; "right"; "back"; "02"] /\
  Str.join "_" ["be"; "right"; "back"] = "be_right_back".
Proof. repeat split; reflexivity. Qed.

Example screen_type_examples :
  screen_type_of "starting_01" = "starting" /\
  screen_type_of "be_right_back_02" = "be_right_back" /\
  screen_type_of "ending" = "ending".
Proof. repeat split; reflexivity. Qed.

Example parse_critic_response_examples :
  parse_critic_response loads_empty_object
    ("Here you are:" ++ nl ++ "```json" ++ nl ++ "{}" ++ nl ++ "```" ++ nl) =
    Ok (JDict []) /\
  parse_critic_response loads_empty_object (" ``` {} ``` ") = Ok (JDict []) /\
  parse_critic_response loads_empty_object "{}" = Ok (JDict []) /\
  parse_critic_response loads_empty_object "```json {}" =
    Raise (ValueError "Critic response is not valid JSON: Expecting value").
Proof. repeat split; reflexivity. Qed.

(** ** The stopping-condition evaluator *)

Section StoppingFacts.

Variable repr_float : Q -> string.

Lemma latest_score_of_evaluation (ws : WorkflowState) (ev : PackEvaluation) :
  latest_evaluation ws = Some ev -> latest_score ws = Some (overall_score ev).
Proof. unfold latest_score. now intros ->. Qed.

(** The reason of the max-rounds stop holds none of the words the project
    manager looks for. *)
Lemma max_rounds_reason_plain (n : Z) :
  let reason := "Max rounds (" ++ str_int n ++ ") reached" in
  contains "BLOCKED" reason = false /\
  contains "PASS" reason = false /\
  contains "threshold" (lower reason) = false.
Proof.
  pose proof (numeral_str_int n) as Hn.
  cbv zeta. repeat split.
  - apply contains_first_absent. rewrite !occurs_app.
    rewrite (numeral_absent _ _ Hn); reflexivity.
  - apply contains_first_absent. rewrite !occurs_app.
    rewrite (numeral_absent _ _ Hn); reflexivity.
  - rewrite !lower_app, (lower_numeral _ Hn).
    apply contains_first_absent. rewrite !occurs_app.
    rewrite (numeral_absent _ _ Hn); reflexivity.
Qed.

(** The evaluator of the project manager never raises, and it stops exactly
    when [should_continue] says not to continue. *)
Lemma check_stopping_conditions_total (ws : WorkflowState) :
  exists decision reason,
    check_stopping_conditions repr_float ws =
    Ok (negb (fst (should_continue repr_float ws)), decision, reason).
Proof.
  unfold check_stopping_conditions, should_continue.
  destruct (latest_evaluation ws) as [ev|] eqn:Hev.
  - rewrite (latest_score_of_evaluation ws ev Hev).
    destruct (truthy_list (critical_issues ev)); cbn [negb fst].
    { destruct (contains "BLOCKED" _); [eauto|].
      destruct (contains "PASS" _ || contains "threshold" _); [eauto|].
      destruct (truthy_num _ && ge _ _); eauto. }
    destruct (passes_threshold ev); cbn [negb fst].
    { destruct (contains "BLOCKED" _); [eauto|].
      destruct (contains "PASS" _ || contains "threshold" _); [eauto|].
      destruct (truthy_num _ && ge _ _); eauto. }
    destruct (current_round ws >? max_rounds ws); cbn [negb fst].
    { destruct (contains "BLOCKED" _); [eauto|].
      destruct (contains "PASS" _ || contains "threshold" _); [eauto|].
      destruct (truthy_num _ && ge _ _); eauto. }
    eauto.
  - cbn. eauto.
Qed.

(** Past the round budget, without a critical issue and without a pass, the
    evaluator stops; the label is PASS exactly when the latest score is
    non-zero and at least the quality threshold of the state. *)
Lemma exhausted_outcome (ws : WorkflowState) (ev : PackEvaluation) :
  latest_evaluation ws = Some ev ->
  critical_issues ev = [] ->
  passes_threshold ev = false ->
  current_round ws > max_rounds ws ->
  check_stopping_conditions repr_float ws =
  if truthy_num (overall_score ev) &&
     ge (overall_score ev) (quality_threshold ws)
  then Ok (true, "PASS",
           "Max rounds reached, but quality acceptable (" ++
           fmt_1f (overall_score ev) ++ "/10)")
  else Ok (true, "CONTINUE",
           "Max rounds reached with score " ++ fmt_1f (overall_score ev) ++
           "/10").
Proof.
  intros Hev Hcrit Hpass Hround.
  unfold check_stopping_conditions, should_continue.
  rewrite (latest_score_of_evaluation ws ev Hev), Hev, Hcrit, Hpass.
  cbn [truthy_list].
  assert (Hgt : (current_round ws >? max_rounds ws) = true)
    by (apply Z.gtb_lt; lia).
  rewrite Hgt. cbn [negb].
  destruct (max_rounds_reason_plain (max_rounds ws)) as (HB & HP & HT).
  cbv zeta in HB, HP, HT. rewrite HB, HP, HT. reflexivity.
Qed.

Lemma fmt_1f_absent (c : ascii) (q : Q) :
  numeral_char c = false -> Ascii.eqb c "." = false ->
  occurs c (fmt_1f q) = false.
Proof.
  intros Hc Hdot. unfold fmt_1f. rewrite !occurs_app.
  rewrite !(numeral_absent c _ (numeral_str_int _) Hc).
  cbn [occurs]. rewrite Hdot.
  destruct (Qnum q <? 0); cbn [occurs]; [|reflexivity].
  destruct (Ascii.eqb c "-") eqn:E; [|reflexivity].
  apply Ascii.eqb_eq in E. subst c. discriminate Hc.
Qed.

(** What the evaluator does within the round budget when there is no
    critical issue: it passes exactly when the score is at least 8.5,
    whatever the quality threshold of the state. (The rendering of a float
    is taken not to hold the letter B.) *)
Lemma pass_at_fixed_threshold (ws : WorkflowState) (ev : PackEvaluation) :
  (forall q, occurs "B" (repr_float q) = false) ->
  latest_evaluation ws = Some ev ->
  critical_issues ev = [] ->
  current_round ws <= max_rounds ws ->
  check_stopping_conditions repr_float ws =
  if ge (overall_score ev) (85 # 10)
  then Ok (true, "PASS",
           "PASS - Score " ++ fmt_1f (overall_score ev) ++ " ≥ threshold " ++
           repr_float (quality_threshold ws))
  else Ok (false, "CONTINUE",
           "Score " ++ fmt_1f (overall_score ev) ++ " < threshold " ++
           repr_float (quality_threshold ws)).
Proof.
  intros Hrepr Hev Hcrit Hround.
  unfold check_stopping_conditions, should_continue, passes_threshold.
  rewrite Hev, Hcrit. cbn [truthy_list negb andb].
  rewrite andb_true_r.
  destruct (ge (overall_score ev) (85 # 10)).
  - cbn [negb].
    assert (HB : contains "BLOCKED"
                   ("PASS - Score " ++ fmt_1f (overall_score ev) ++
                    " ≥ threshold " ++ repr_float (quality_threshold ws))
                 = false).
    { apply contains_first_absent. rewrite !occurs_app, Hrepr.
      rewrite fmt_1f_absent by reflexivity. reflexivity. }
    rewrite HB. reflexivity.
  - assert (Hle : (current_round ws >? max_rounds ws) = false)
      by (rewrite Z.gtb_ltb; apply Z.ltb_ge; exact Hround).
    rewrite Hle. reflexivity.
Qed.

End StoppingFacts.

(** C2. A state whose latest round carries an evaluation with a non-empty
    list of critical issues is stopped with the decision BLOCKED, whatever
    the overall score of that evaluation; the reason carries the count. *)
Theorem critical_issues_block (repr_float : Q -> string) (ws : WorkflowState)
    (ev : PackEvaluation) :
  latest_evaluation ws = Some ev ->
  critical_issues ev <> [] ->
  check_stopping_conditions repr_float ws =
  Ok (true, "BLOCKED",
      "BLOCKED by " ++ str_int (len (critical_issues ev)) ++
      " critical issue(s)").
Proof.
  intros Hev Hcrit.
  unfold check_stopping_conditions, should_continue. rewrite Hev.
  destruct (critical_issues ev) as [|issue more] eqn:E; [congruence|].
  reflexivity.
Qed.


Lemma critical_issues_block_witness :
  check_stopping_conditions fmt_1f
    (one_round_state 3 (85 # 10) 10 ["oversized archive"]) =
  Ok (true, "BLOCKED", "BLOCKED by 1 critical issue(s)").
Proof.
  apply (critical_issues_block fmt_1f
           (one_round_state 3 (85 # 10) 10 ["oversized archive"])
           (mkPackEvaluation "demo" 10 [] ["oversized archive"] [] [] true)).
  - reflexivity.
  - discriminate.
Defined.

(** C1. The pass test of the evaluator compares the score with the constant
    8.5 of [passes_threshold], not with the quality threshold of the state:
    with a threshold of 7.0, three rounds allowed and one round evaluated
    without critical issues, a score of 7.5 and a score of exactly 7.0 are
    both sent on to the next round instead of passing; with a threshold of
    9.5, a score of 9.0 passes. *)
Theorem pass_test_ignores_quality_threshold (repr_float : Q -> string) :
  (check_stopping_conditions repr_float (one_round_state 3 7 (75 # 10) []) =
     Ok (false, "CONTINUE", "Score 7.5 < threshold " ++ repr_float 7%Q) /\
   ge (75 # 10) 7 = true) /\
  (check_stopping_conditions repr_float (one_round_state 3 7 7 []) =
     Ok (false, "CONTINUE", "Score 7.0 < threshold " ++ repr_float 7%Q) /\
   ge 7 7 = true) /\
  (fst (should_continue repr_float (one_round_state 3 (95 # 10) 9 [])) = false /\
   passes_threshold (mkPackEvaluation "demo" 9 [] [] [] [] true) = true /\
   ge 9 (95 # 10) = false).
Proof. repeat split. Qed.

(** C3. Past the round budget the evaluator is terminal, but a latest score
    of zero counts as no score: with a quality threshold of 0.0, one round
    allowed and one round evaluated at 0.0 without critical issues, the
    label is CONTINUE although the score is at least the threshold. *)
Theorem exhausted_zero_score_is_not_pass (repr_float : Q -> string) :
  check_stopping_conditions repr_float (one_round_state 1 0 0 []) =
    Ok (true, "CONTINUE", "Max rounds reached with score 0.0/10") /\
  ge 0 0 = true /\
  current_round (one_round_state 1 0 0 []) > 1 /\
  passes_threshold (mkPackEvaluation "demo" 0 [] [] [] [] true) = false.
Proof. repeat split. Qed.

(** ** The score aggregator *)





(** ** The automated technical checker *)

Lemma py_max_0_Qmax (x : Q) : (Py.max 0 x == Qmax 0 x)%Q.
Proof.
  unfold Py.max, gt. destruct (Qle_bool x 0) eqn:E; cbn [negb].
  - apply Qle_bool_iff in E. symmetry. now apply Q.max_l.
  - assert (H : (0 <= x)%Q).
    { destruct (Qlt_le_dec 0 x) as [H|H]; [now apply Qlt_le_weak|].
      apply Qle_bool_iff in H. congruence. }
    symmetry. now apply Q.max_r.
Qed.

Lemma py_max_0_nonneg (x : Q) : (0 <= Py.max 0 x)%Q.
Proof. rewrite py_max_0_Qmax. apply Q.le_max_l. Qed.

Lemma compute_automated_score_unfold (p : PackDir) :
  let oi := fst (validate_technical_overlays
                   (path_join (pack_path p) "03_final") (final_pngs p)) in
  let le := fst (fst (validate_etsy_listings (listing_jpgs p))) in
  let zi := fst (validate_etsy_downloads (zips p)) in
  compute_automated_score p =
  (Py.max 0 (10 - inject_Z (len ((oi ++ le) ++ zi)%list) * (1 # 2))%Q,
   ((oi ++ le) ++ zi)%list).
Proof.
  unfold compute_automated_score.
  destruct (validate_technical_overlays _ _) as [oi op].
  destruct (validate_etsy_listings _) as [[le lw] lp].
  destruct (validate_etsy_downloads _) as [zi zp].
  reflexivity.
Qed.

(** The issue list and the score of [compute_automated_score], with the
    maximum of the rationals. *)
Lemma automated_score_unfolded (p : PackDir) :
  let oi := fst (validate_technical_overlays
                   (path_join (pack_path p) "03_final") (final_pngs p)) in
  let le := fst (fst (validate_etsy_listings (listing_jpgs p))) in
  let zi := fst (validate_etsy_downloads (zips p)) in
  snd (compute_automated_score p) = ((oi ++ le) ++ zi)%list /\
  (fst (compute_automated_score p) ==
   Qmax 0 (10 - inject_Z (Z.of_nat (length oi + length le + length zi)) *
                (1 # 2)))%Q.
Proof.
  cbv zeta. rewrite compute_automated_score_unfold. cbn [fst snd].
  unfold len. rewrite !length_app. split; [reflexivity | apply py_max_0_Qmax].
Qed.

(** C5. The automated score of a pack is [max(0, 10 - 0.5 n)], [n] being the
    number of issues of the overlay validation, of the errors (not the
    warnings) of the listing validation and of the archive validation; it
    is never negative; 3 issues give 8.5 and 25 issues give 0. *)
Theorem automated_score_formula (p : PackDir) :
  let oi := fst (validate_technical_overlays
                   (path_join (pack_path p) "03_final") (final_pngs p)) in
  let le := fst (fst (validate_etsy_listings (listing_jpgs p))) in
  let zi := fst (validate_etsy_downloads (zips p)) in
  let n := (length oi + length le + length zi)%nat in
  snd (compute_automated_score p) = ((oi ++ le) ++ zi)%list /\
  (fst (compute_automated_score p) ==
   Qmax 0 (10 - inject_Z (Z.of_nat n) * (1 # 2)))%Q /\
  (0 <= fst (compute_automated_score p))%Q /\
  (n = 3%nat -> (fst (compute_automated_score p) == 85 # 10)%Q) /\
  (n = 25%nat -> (fst (compute_automated_score p) == 0)%Q).
Proof.
  cbv zeta. rewrite compute_automated_score_unfold. cbn [fst snd].
  unfold len. rewrite !length_app.
  set (n := (length _ + length _ + length _)%nat).
  repeat split.
  - apply py_max_0_Qmax.
  - apply py_max_0_nonneg.
  - intros ->. reflexivity.
  - intros ->. reflexivity.
Qed.

Lemma automated_score_formula_witness :
  (fst (compute_automated_score (pack_with_bad_overlays 3)) == 85 # 10)%Q /\
  (fst (compute_automated_score (pack_with_bad_overlays 25)) == 0)%Q.
Proof.
  split.
  - apply (proj1 (proj2 (proj2 (proj2
             (automated_score_formula (pack_with_bad_overlays 3)))))).
    reflexivity.
  - apply (proj2 (proj2 (proj2 (proj2
             (automated_score_formula (pack_with_bad_overlays 25)))))).
    vm_compute. reflexivity.
Defined.

(** ** Persistence *)

Lemma map_result_map {A B : Type} (f : B -> result A) (g : A -> B)
    (l : list A) :
  (forall x, In x l -> f (g x) = Ok x) -> map_result f (map g l) = Ok l.
Proof.
  induction l as [|x l IH]; intros H; [reflexivity|].
  simpl. rewrite H by (left; reflexivity). cbn [bind].
  rewrite IH by (intros y Hy; apply H; right; exact Hy). reflexivity.
Qed.

Lemma as_str_list_of_str_list (l : list string) :
  as_str_list (json_of_str_list l) = Ok l.
Proof.
  unfold as_str_list, json_of_str_list. cbn [as_list bind].
  apply map_result_map. reflexivity.
Qed.

Lemma as_str_dict_of_str_dict (d : list (string * string)) :
  as_str_dict (json_of_str_dict d) = Ok d.
Proof.
  unfold as_str_dict, json_of_str_dict.
  induction d as [|[k v] d IH]; [reflexivity|].
  cbn [map map_result fst snd as_str bind]. now rewrite IH.
Qed.

Lemma EvaluationScore_roundtrip (s : EvaluationScore) :
  EvaluationScore_of_kwargs (asdict_EvaluationScore s) = Ok s.
Proof.
  destruct s as [d sc w j i].
  unfold EvaluationScore_of_kwargs, asdict_EvaluationScore.
  cbn -[as_str_list json_of_str_list].
  now rewrite as_str_list_of_str_list.
Qed.

Lemma load_evaluation_roundtrip (ev : PackEvaluation) :
  load_evaluation (asdict_PackEvaluation ev) = Ok (Some ev).
Proof.
  destruct ev as [pn os ds ci si dl ok].
  unfold load_evaluation, asdict_PackEvaluation.
  cbn -[as_str_list json_of_str_list as_str_dict json_of_str_dict
        map_result EvaluationScore_of_kwargs asdict_EvaluationScore].
  rewrite (map_result_map EvaluationScore_of_kwargs asdict_EvaluationScore)
    by (intros; apply EvaluationScore_roundtrip).
  cbn -[as_str_list json_of_str_list as_str_dict json_of_str_dict].
  rewrite !as_str_list_of_str_list, as_str_dict_of_str_dict. reflexivity.
Qed.

(** [to_dict] writes the evaluation the way [asdict] does. *)
Lemma to_dict_asdict (r : RoundState) : to_dict r = JDict (asdict_RoundState r).
Proof. destruct r as [n t p [ev|] v c]; reflexivity. Qed.

Lemma load_round_roundtrip (r : RoundState) : load_round (to_dict r) = Ok r.
Proof.
  rewrite to_dict_asdict. destruct r as [n t p ev v c].
  unfold load_round, asdict_RoundState.
  cbn -[load_evaluation asdict_PackEvaluation as_str_dict json_of_str_dict].
  replace (load_evaluation match ev with
                           | Some ev0 => asdict_PackEvaluation ev0
                           | None => JNull
                           end) with (Ok ev : result (option PackEvaluation)).
  - cbn -[as_str_dict json_of_str_dict].
    rewrite as_str_dict_of_str_dict. reflexivity.
  - destruct ev as [ev|]; [now rewrite load_evaluation_roundtrip | reflexivity].
Qed.

(** Decoding the document of [save] gives the state back. *)
Lemma load_data_save_data (ws : WorkflowState) :
  load_data (save_data ws) = Ok ws.
Proof.
  destruct ws as [pn sa mr qt rs c cr].
  unfold load_data, save_data, asdict_WorkflowState.
  cbn -[map_result load_round to_dict].
  rewrite (map_result_map load_round to_dict)
    by (intros; apply load_round_roundtrip).
  reflexivity.
Qed.

Lemma string_length_app (a b : string) :
  String.length (a ++ b) = (String.length a + String.length b)%nat.
Proof. induction a as [|c a IH]; simpl; [reflexivity | now rewrite IH]. Qed.

Lemma path_join_neq (path name : string) : path_join path name <> path.
Proof.
  unfold path_join. intros H. apply (f_equal String.length) in H.
  rewrite string_length_app in H. simpl in H. lia.
Qed.

Lemma write_node_same (fs : file_system) (path : string) (n : node) :
  write_node fs path n path = Some n.
Proof. unfold write_node. now rewrite String.eqb_refl. Qed.

Lemma write_node_other (fs : file_system) (path other : string) (n : node) :
  other <> path -> write_node fs path n other = fs other.
Proof.
  unfold write_node. intros H. apply String.eqb_neq in H. now rewrite H.
Qed.

(** What a successful [save] leaves on the file system. *)
Lemma save_effect (ws : WorkflowState) (pack_dir : string)
    (fs fs' : file_system) :
  save ws pack_dir fs = Ok fs' ->
  fs' (state_file_of pack_dir) = Some (JsonFile (save_data ws)) /\
  fs' (path_join pack_dir "qa") = Some Dir /\
  (forall path, path <> state_file_of pack_dir ->
                path <> path_join pack_dir "qa" -> fs' path = fs path).
Proof.
  unfold save, mkdir_exist_ok, state_file_of.
  set (qa := path_join pack_dir "qa").
  set (sf := path_join qa "workflow_state.json").
  assert (Hne : qa <> sf) by (intros H; symmetry in H; now apply path_join_neq in H).
  destruct (fs qa) as [[| |]|] eqn:Hqa; cbn [bind]; try discriminate.
  - destruct (fs sf) as [[| |]|] eqn:Hsf; try discriminate;
      intros [= <-]; (split; [apply write_node_same|]);
      (split; [rewrite write_node_other by exact Hne; exact Hqa|]);
      intros path H1 H2; now rewrite write_node_other.
  - destruct (fs pack_dir) as [[| |]|]; cbn [bind]; try discriminate.
    rewrite write_node_other
      by (intros H; symmetry in H; now apply Hne).
    destruct (fs sf) as [[| |]|] eqn:Hsf; try discriminate;
      intros [= <-]; (split; [apply write_node_same|]);
      (split; [rewrite write_node_other by exact Hne; apply write_node_same|]);
      intros path H1 H2; now rewrite !write_node_other.
Qed.

Lemma load_after_save (ws : WorkflowState) (pack_dir : string)
    (fs fs' : file_system) :
  save ws pack_dir fs = Ok fs' -> load pack_dir fs' = Ok (Some ws).
Proof.
  intros H. apply save_effect in H as (Hfile & _ & _).
  unfold load. unfold state_file_of in Hfile. rewrite Hfile.
  now rewrite load_data_save_data.
Qed.

(** Saving again what is already saved changes nothing. *)
Lemma save_again (ws : WorkflowState) (pack_dir : string)
    (fs fs' : file_system) :
  save ws pack_dir fs = Ok fs' ->
  exists fs'', save ws pack_dir fs' = Ok fs'' /\
               forall path, fs'' path = fs' path.
Proof.
  intros H. apply save_effect in H as (Hfile & Hqa & _).
  unfold save, mkdir_exist_ok. unfold state_file_of in Hfile.
  rewrite Hqa. cbn [bind]. rewrite Hfile.
  eexists. split; [reflexivity|].
  intros path. unfold write_node.
  destruct (String.eqb_spec path
              (path_join (path_join pack_dir "qa") "workflow_state.json"))
    as [->|_]; [now rewrite Hfile | reflexivity].
Qed.

(** C8. Loading what [save] wrote reconstructs the saved state, field for
    field, rounds in order, nested evaluations and dimension scores
    included; saving the loaded state again leaves the state file (and the
    rest of the file system) as it is. *)
Theorem save_load_roundtrip (ws : WorkflowState) (pack_dir : string)
    (fs fs' : file_system) :
  save ws pack_dir fs = Ok fs' ->
  load pack_dir fs' = Ok (Some ws) /\
  forall loaded, load pack_dir fs' = Ok (Some loaded) ->
    loaded = ws /\
    exists fs'', save loaded pack_dir fs' = Ok fs'' /\
                 forall path, fs'' path = fs' path.
Proof.
  intros H. split; [now apply load_after_save with fs|].
  intros loaded Hl. rewrite (load_after_save ws pack_dir fs fs' H) in Hl.
  injection Hl as <-. split; [reflexivity|]. now apply save_again with fs.
Qed.

(** ** The workflow driver *)

Lemma last_item_app {A : Type} (l : list A) (x : A) :
  last_item (l ++ [x]) = Some x.
Proof.
  induction l as [|y l IH]; [reflexivity|].
  simpl. rewrite IH. destruct (l ++ [x])%list eqn:E; [|reflexivity].
  now destruct l.
Qed.

Lemma latest_evaluation_add_round (ws : WorkflowState) (r : RoundState) :
  latest_evaluation (add_round ws r) = evaluation r.
Proof.
  unfold latest_evaluation, add_round, append. cbn [rounds].
  now rewrite last_item_app.
Qed.

Lemma with_rounds_same (ws : WorkflowState) : with_rounds ws (rounds ws) = ws.
Proof. now destruct ws. Qed.

Section DriverFacts.

Variable repr_float : Q -> string.
Variable World : Type.
Variable collaborators :
  Z -> WorkflowState -> World -> World * result RoundOutput.
Variable pack_dir : string.

Local Abbreviation loop := (main_loop repr_float World collaborators).
Local Abbreviation continues ws :=
  (fst (should_continue repr_float ws) = true).

(** A round comes back from [run_round] with the number it was run for and
    with an evaluation. *)
Lemma run_round_result (n : Z) (ws : WorkflowState) (w w1 : World)
    (r : RoundState) :
  run_round repr_float World collaborators n ws w = (w1, Ok r) ->
  round_num r = n /\ exists ev, evaluation r = Some ev.
Proof.
  unfold run_round. destruct (collaborators n ws w) as [w' [out|e]].
  - destruct (check_stopping_conditions repr_float ws).
    + intros [= _ <-]. split; [reflexivity | eexists; reflexivity].
    + intros [= _ H].
  - intros [= _ H].
Qed.

(** A state whose latest round is evaluated goes on only within the round
    budget. *)
Lemma continues_within_budget (ws : WorkflowState) (ev : PackEvaluation) :
  latest_evaluation ws = Some ev ->
  continues ws -> current_round ws <= max_rounds ws.
Proof.
  unfold should_continue. intros ->.
  destruct (truthy_list _); [discriminate|].
  destruct (passes_threshold ev); [discriminate|].
  destruct (current_round ws >? max_rounds ws) eqn:E; [discriminate|].
  intros _. rewrite Z.gtb_ltb, Z.ltb_ge in E. exact E.
Qed.

(** One iteration of the loop, by cases. *)
Lemma loop_step (fuel : nat) (ws : WorkflowState) (fs : file_system)
    (w : World) :
  (fst (should_continue repr_float ws) = false /\
   loop (S fuel) pack_dir ws fs w =
   Finished World (finalize ws (snd (should_continue repr_float ws))) fs w) \/
  (continues ws /\
   ((exists e w1,
       run_round repr_float World collaborators (current_round ws) ws w =
       (w1, Raise e) /\
       loop (S fuel) pack_dir ws fs w = Raised World e ws fs w1) \/
    (exists r w1,
       run_round repr_float World collaborators (current_round ws) ws w =
       (w1, Ok r) /\
       ((exists e, save (add_round ws r) pack_dir fs = Raise e /\
                   loop (S fuel) pack_dir ws fs w =
                   Raised World e (add_round ws r) fs w1) \/
        (exists fs1, save (add_round ws r) pack_dir fs = Ok fs1 /\
           ((fst (should_continue repr_float (add_round ws r)) = false /\
             exists reason,
               loop (S fuel) pack_dir ws fs w =
               Finished World (finalize (add_round ws r) reason) fs1 w1) \/
            (continues (add_round ws r) /\
             loop (S fuel) pack_dir ws fs w =
             loop fuel pack_dir (add_round ws r) fs1 w1))))))).
Proof.
  cbn [main_loop].
  destruct (should_continue repr_float ws) as [sc reason] eqn:Hsc.
  destruct sc; cbn [negb fst snd]; [right | left; split; reflexivity].
  split; [reflexivity|].
  destruct (run_round repr_float World collaborators (current_round ws) ws w)
    as [w1 [r|e]]; [right | left; eauto].
  exists r, w1. split; [reflexivity|].
  destruct (save (add_round ws r) pack_dir fs) as [fs1|e]; [right | left; eauto].
  exists fs1. split; [reflexivity|].
  destruct (check_stopping_conditions_total repr_float (add_round ws r))
    as (decision & reason' & ->).
  destruct (fst (should_continue repr_float (add_round ws r)));
    cbn [negb]; [right | left]; eauto.
Qed.

Lemma add_round_with_rounds (ws : WorkflowState) (r : RoundState)
    (more : list RoundState) :
  with_rounds (add_round ws r) (rounds (add_round ws r) ++ more) =
  with_rounds ws (rounds ws ++ r :: more).
Proof.
  unfold with_rounds, add_round, append. cbn. now rewrite <- app_assoc.
Qed.

(** The rounds a run of the loop appends: each of them is appended to a
    state on which the evaluator says to continue, and a run that finishes
    leaves a completed state on which the evaluator says to stop. *)
Lemma loop_rounds (fuel : nat) :
  forall (ws : WorkflowState) (fs : file_system) (w : World),
  exists new,
    rounds (outcome_state World (loop fuel pack_dir ws fs w)) =
    (rounds ws ++ new)%list /\
    (forall k, (k < length new)%nat ->
       continues (with_rounds ws (rounds ws ++ firstn k new))) /\
    (forall ws' fs' w',
       loop fuel pack_dir ws fs w = Finished World ws' fs' w' ->
       completed ws' = true /\
       fst (should_continue repr_float ws') = false).
Proof.
  induction fuel as [|fuel IH]; intros ws fs w.
  - exists []. cbn. rewrite app_nil_r. repeat split; [intros; lia | discriminate ..].
  - destruct (loop_step fuel ws fs w)
      as [[Hstop ->] | [Hgo [(e & w1 & _ & ->) | (r & w1 & _ & Hr)]]].
    + exists []. cbn. rewrite app_nil_r. split; [reflexivity|].
      split; [intros; lia|]. intros ws' fs' w' [= <- _ _].
      split; [reflexivity | exact Hstop].
    + exists []. cbn. rewrite app_nil_r. split; [reflexivity|].
      split; [intros; lia | discriminate].
    + assert (Hfirst : forall k, (k < 1)%nat ->
                continues (with_rounds ws (rounds ws ++ firstn k [r]))).
      { intros k Hk. replace k with 0%nat by lia. cbn [firstn].
        now rewrite app_nil_r, with_rounds_same. }
      destruct Hr as [(e & _ & ->)
                     | (fs1 & _ & [(Hstop & reason & ->) | (Hgo1 & ->)])].
      * exists [r]. cbn. repeat split; [exact Hfirst | discriminate ..].
      * exists [r]. cbn. split; [reflexivity|].
        split; [exact Hfirst|]. intros ws' fs' w' [= <- _ _].
        split; [reflexivity | exact Hstop].
      * destruct (IH (add_round ws r) fs1 w1) as (new & Hrounds & Hcont & Hfin).
        exists (r :: new). split; [|split].
        -- rewrite Hrounds. unfold add_round, append. cbn.
           now rewrite <- app_assoc.
        -- intros [|k] Hk.
           ++ cbn [firstn]. now rewrite app_nil_r, with_rounds_same.
           ++ cbn [firstn]. rewrite <- add_round_with_rounds.
              apply Hcont. cbn in Hk. lia.
        -- exact Hfin.
Qed.

(** On a state on which the evaluator says to stop, the loop runs no round. *)
Lemma loop_terminal (fuel : nat) (ws : WorkflowState) (fs : file_system)
    (w : World) :
  fst (should_continue repr_float ws) = false ->
  rounds (outcome_state World (loop fuel pack_dir ws fs w)) = rounds ws /\
  loop (S fuel) pack_dir ws fs w =
  Finished World (finalize ws (snd (should_continue repr_float ws))) fs w.
Proof.
  intros Hstop. split.
  - destruct fuel as [|fuel]; [reflexivity|].
    destruct (loop_step fuel ws fs w) as [[_ ->] | [Hgo _]];
      [reflexivity | congruence].
  - destruct (loop_step fuel ws fs w) as [[_ ->] | [Hgo _]];
      [reflexivity | congruence].
Qed.

(** The loop ends within the round budget: with more fuel than rounds left
    it does not run out of fuel. *)
Lemma loop_terminates (fuel : nat) :
  forall (ws : WorkflowState) (fs : file_system) (w : World),
  (Z.to_nat (max_rounds ws - len (rounds ws)) < fuel)%nat ->
  forall ws' fs' w', loop fuel pack_dir ws fs w <> OutOfFuel World ws' fs' w'.
Proof.
  induction fuel as [|fuel IH]; intros ws fs w Hfuel ws' fs' w'; [lia|].
  destruct (loop_step fuel ws fs w)
    as [[_ ->] | [_ [(e & w1 & _ & ->) | (r & w1 & Hrun & Hr)]]];
    try discriminate.
  destruct Hr as [(e & _ & ->)
                 | (fs1 & _ & [(_ & reason & ->) | (Hgo1 & ->)])];
    try discriminate.
  apply IH.
  apply run_round_result in Hrun as (_ & ev & Hev).
  pose proof (continues_within_budget (add_round ws r) ev) as Hb.
  rewrite latest_evaluation_add_round in Hb. specialize (Hb Hev Hgo1).
  unfold current_round, add_round, append, len in *. cbn [rounds max_rounds] in *.
  rewrite length_app in *. cbn [length] in *. lia.
Qed.

Lemma well_numbered_add_round (ws : WorkflowState) (r : RoundState) :
  well_numbered ws -> round_num r = current_round ws ->
  well_numbered (add_round ws r).
Proof.
  unfold well_numbered, add_round, append, current_round, len. cbn [rounds].
  intros Hws Hr i r'.
  destruct (Nat.lt_ge_cases i (length (rounds ws))) as [Hlt|Hge].
  - rewrite nth_error_app1 by exact Hlt. apply Hws.
  - rewrite nth_error_app2 by exact Hge.
    destruct (i - length (rounds ws))%nat as [|j] eqn:E.
    + cbn. intros [= <-]. rewrite Hr. lia.
    + cbn. destruct j; discriminate.
Qed.

Lemma loop_well_numbered (fuel : nat) :
  forall (ws : WorkflowState) (fs : file_system) (w : World),
  well_numbered ws ->
  well_numbered (outcome_state World (loop fuel pack_dir ws fs w)).
Proof.
  induction fuel as [|fuel IH]; intros ws fs w Hws; [exact Hws|].
  destruct (loop_step fuel ws fs w)
    as [[_ ->] | [_ [(e & w1 & _ & ->) | (r & w1 & Hrun & Hr)]]];
    try exact Hws.
  apply run_round_result in Hrun as (Hnum & _).
  pose proof (well_numbered_add_round ws r Hws Hnum) as Hws1.
  destruct Hr as [(e & _ & ->)
                 | (fs1 & _ & [(_ & reason & ->) | (_ & ->)])];
    [exact Hws1 | exact Hws1 | now apply IH].
Qed.

End DriverFacts.

(** *** Paths *)

Lemma string_app_assoc (a b c : string) : (a ++ b) ++ c = a ++ (b ++ c).
Proof. induction a as [|x a IH]; simpl; [reflexivity | now rewrite IH]. Qed.

Lemma string_app_inv_head (a b c : string) : a ++ b = a ++ c -> b = c.
Proof.
  induction a as [|x a IH]; simpl; intros H; [exact H|].
  injection H as H. now apply IH.
Qed.

Lemma path_join2_neq (path a b : string) :
  path_join (path_join path a) b <> path.
Proof.
  unfold path_join. intros H. apply (f_equal String.length) in H.
  rewrite !string_length_app in H. simpl in H. lia.
Qed.

Lemma config_not_qa (pack_dir : string) :
  path_join pack_dir "config.yaml" <> path_join pack_dir "qa".
Proof. unfold path_join. intros H. now apply string_app_inv_head in H. Qed.

Lemma config_not_state_file (pack_dir : string) :
  path_join pack_dir "config.yaml" <> state_file_of pack_dir.
Proof.
  unfold state_file_of, path_join. rewrite string_app_assoc.
  intros H. now apply string_app_inv_head in H.
Qed.

(** [save] leaves the pack directory and the configuration file alone. *)
Lemma save_keeps_pack (ws : WorkflowState) (pack_dir : string)
    (fs fs' : file_system) :
  save ws pack_dir fs = Ok fs' ->
  fs' pack_dir = fs pack_dir /\
  fs' (path_join pack_dir "config.yaml") =
  fs (path_join pack_dir "config.yaml").
Proof.
  intros H. apply save_effect in H as (_ & _ & Hother). split; apply Hother.
  - intros H. symmetry in H. now apply path_join2_neq in H.
  - intros H. symmetry in H. now apply path_join_neq in H.
  - apply config_not_state_file.
  - apply config_not_qa.
Qed.

Section ResumeFacts.

Variable repr_float : Q -> string.
Variable World : Type.
Variable collaborators :
  Z -> WorkflowState -> World -> World * result RoundOutput.
Variable clock : World -> string.
Variable deliverables : WorkflowState -> World -> World * result unit.

Local Abbreviation loop := (main_loop repr_float World collaborators).
Local Abbreviation driver :=
  (run_multi_agent_workflow repr_float World collaborators clock deliverables).

Lemma loop_keeps_pack (pack_dir : string) (fuel : nat) :
  forall (ws : WorkflowState) (fs : file_system) (w : World),
  let fs' := outcome_fs World (loop fuel pack_dir ws fs w) in
  fs' pack_dir = fs pack_dir /\
  fs' (path_join pack_dir "config.yaml") =
  fs (path_join pack_dir "config.yaml").
Proof.
  induction fuel as [|fuel IH]; intros ws fs w; [now split|].
  cbv zeta.
  destruct (loop_step repr_float World collaborators pack_dir fuel ws fs w)
    as [[_ ->] | [_ [(e & w1 & _ & ->) | (r & w1 & _ & Hr)]]];
    try (now split).
  destruct Hr as [(e & _ & ->)
                 | (fs1 & Hsave & [(_ & reason & ->) | (_ & ->)])];
    [now split | |].
  - now apply save_keeps_pack in Hsave.
  - apply save_keeps_pack in Hsave as [H1 H2].
    destruct (IH (add_round ws r) fs1 w1) as [H3 H4].
    split; congruence.
Qed.

(** A run of the driver on what a finished run left behind appends no
    round. *)
Lemma resume_finished (fuel : nat) (packs_root pack_name : string)
    (max_rounds : Z) (quality_threshold : Q) (fs fs1 : file_system)
    (w w1 : World) (ws1 : WorkflowState) :
  driver fuel packs_root pack_name max_rounds quality_threshold fs w =
  Ok (Finished World ws1 fs1 w1) ->
  completed ws1 = true /\
  forall (fuel' : nat) (max_rounds' : Z) (quality_threshold' : Q) (w' : World),
  exists o,
    driver (S fuel') packs_root pack_name max_rounds' quality_threshold' fs1 w'
    = Ok o /\
    rounds (outcome_state World o) = rounds ws1.
Proof.
  unfold run_multi_agent_workflow.
  set (pack_dir := path_join packs_root pack_name).
  set (config := path_join pack_dir "config.yaml").
  unfold exists_path.
  destruct (fs pack_dir) as [npack|] eqn:Hpack; cbn [negb]; [|discriminate].
  destruct (fs config) as [nconf|] eqn:Hconf; cbn [negb]; [|discriminate].
  destruct (load pack_dir fs) as [loaded|e]; cbn [bind]; [|discriminate].
  set (ws0 := match loaded with
              | Some ws => ws
              | None => create_new (clock w) pack_name max_rounds
                                   quality_threshold
              end).
  destruct (loop fuel pack_dir ws0 fs w) as [wsl fsl wl| |] eqn:Hloop;
    try discriminate.
  destruct (save wsl pack_dir fsl) as [fs2|e] eqn:Hsave; [|discriminate].
  destruct (deliverables wsl wl) as [w2 [[]|e]]; [|discriminate].
  intros [= <- <- <-].
  destruct (loop_rounds repr_float World collaborators pack_dir fuel ws0 fs w)
    as (new & _ & _ & Hfin).
  destruct (Hfin wsl fsl wl Hloop) as [Hcompleted Hstop].
  split; [exact Hcompleted|].
  intros fuel' max_rounds' quality_threshold' w'.
  pose proof (loop_keeps_pack pack_dir fuel ws0 fs w) as Hkeep.
  rewrite Hloop in Hkeep. cbv zeta in Hkeep. cbn [outcome_fs] in Hkeep.
  destruct Hkeep as [Hk1 Hk2].
  destruct (save_keeps_pack wsl pack_dir fsl fs2 Hsave) as [Hs1 Hs2].
  fold config in Hk2, Hs2.
  rewrite Hs1, Hk1, Hpack, Hs2, Hk2, Hconf. cbn [negb].
  rewrite (load_after_save wsl pack_dir fsl fs2 Hsave). cbn [bind].
  destruct (loop_terminal repr_float World collaborators pack_dir fuel' wsl fs2 w'
              Hstop) as [_ ->].
  destruct (save_again wsl pack_dir fsl fs2 Hsave) as (fs3 & Hsave3 & _).
  assert (Hfinal : exists fs4,
             save (finalize wsl (snd (should_continue repr_float wsl)))
                  pack_dir fs2 = Ok fs4).
  { apply save_effect in Hsave as (Hfile & Hqa & _).
    unfold save, mkdir_exist_ok. unfold state_file_of in Hfile.
    rewrite Hqa. cbn [bind]. rewrite Hfile. eauto. }
  destruct Hfinal as (fs4 & ->).
  destruct (deliverables _ w') as [w3 [[]|e]]; eexists; split; reflexivity.
Qed.

End ResumeFacts.

(** C6. The loop of the driver appends a round only to a state on which the
    evaluator says to continue: started on a terminal state it runs no
    round, and the round after which the evaluator stops is the last one.
    A state the loop has finished is completed and gets no further round,
    neither from the loop nor from a later run of the driver that resumes
    from what the finished run saved. The loop ends, normally or by an
    exception, within one iteration more than the rounds left in the
    budget. *)
Theorem no_round_after_terminal (repr_float : Q -> string) (World : Type)
    (collaborators : Z -> WorkflowState -> World -> World * result RoundOutput)
    (clock : World -> string)
    (deliverables : WorkflowState -> World -> World * result unit) :
  (forall (fuel : nat) (pack_dir : string) (ws : WorkflowState)
          (fs : file_system) (w : World),
   exists new,
     rounds (outcome_state World
               (main_loop repr_float World collaborators fuel pack_dir ws fs w))
     = (rounds ws ++ new)%list /\
     (fst (should_continue repr_float ws) = false -> new = []) /\
     (forall k, (k < length new)%nat ->
        fst (should_continue repr_float
               (with_rounds ws (rounds ws ++ firstn k new))) = true) /\
     (forall ws' fs' w',
        main_loop repr_float World collaborators fuel pack_dir ws fs w =
        Finished World ws' fs' w' ->
        completed ws' = true /\
        forall fuel' pack_dir' fs2 w2,
          rounds (outcome_state World
                    (main_loop repr_float World collaborators fuel' pack_dir'
                       ws' fs2 w2)) = rounds ws')) /\
  (forall (fuel : nat) (packs_root pack_name : string) (max_rounds : Z)
          (quality_threshold : Q) (fs fs1 : file_system) (w w1 : World)
          (ws1 : WorkflowState),
   run_multi_agent_workflow repr_float World collaborators clock deliverables
     fuel packs_root pack_name max_rounds quality_threshold fs w =
   Ok (Finished World ws1 fs1 w1) ->
   completed ws1 = true /\
   forall (fuel' : nat) (max_rounds' : Z) (quality_threshold' : Q) (w' : World),
   exists o,
     run_multi_agent_workflow repr_float World collaborators clock deliverables
       (S fuel') packs_root pack_name max_rounds' quality_threshold' fs1 w' =
     Ok o /\
     rounds (outcome_state World o) = rounds ws1) /\
  (forall (fuel : nat) (pack_dir : string) (ws : WorkflowState)
          (fs : file_system) (w : World),
   (Z.to_nat (max_rounds ws - len (rounds ws)) < fuel)%nat ->
   forall ws' fs' w',
     main_loop repr_float World collaborators fuel pack_dir ws fs w <>
     OutOfFuel World ws' fs' w').
Proof.
  split; [|split].
  - intros fuel pack_dir ws fs w.
    destruct (loop_rounds repr_float World collaborators pack_dir fuel ws fs w)
      as (new & Hrounds & Hcont & Hfin).
    exists new. split; [exact Hrounds|]. split; [|split; [exact Hcont|]].
    + intros Hstop. destruct new as [|r new]; [reflexivity|].
      specialize (Hcont 0%nat ltac:(cbn; lia)). cbn [firstn] in Hcont.
      rewrite app_nil_r, with_rounds_same in Hcont. congruence.
    + intros ws' fs' w' Hloop. destruct (Hfin ws' fs' w' Hloop) as [Hc Hstop].
      split; [exact Hc|]. intros fuel' pack_dir' fs2 w2.
      now apply loop_terminal.
  - intros fuel packs_root pack_name mr qt fs fs1 w w1 ws1 Hrun.
    exact (resume_finished repr_float World collaborators clock deliverables
             fuel packs_root pack_name mr qt fs fs1 w w1 ws1 Hrun).
  - intros fuel pack_dir ws fs w Hfuel.
    exact (loop_terminates repr_float World collaborators pack_dir fuel
             ws fs w Hfuel).
Qed.

(** C7. In every workflow state of the driver (fresh, reached by the loop,
    or loaded from what was saved of such a state) the current round is the
    number of rounds plus one and the round at index [i] has number
    [i + 1]. *)
Theorem round_numbers_contiguous (repr_float : Q -> string) (World : Type)
    (collaborators : Z -> WorkflowState -> World -> World * result RoundOutput)
    (ws : WorkflowState) :
  driver_state repr_float World collaborators ws ->
  current_round ws = len (rounds ws) + 1 /\
  forall i r, nth_error (rounds ws) i = Some r -> round_num r = Z.of_nat i + 1.
Proof.
  intros H. split; [reflexivity|]. change (well_numbered ws).
  induction H as [now pack_name max_rounds quality_threshold
                 | fuel pack_dir ws fs w _ IH
                 | pack_dir ws loaded fs fs' _ IH Hsave Hload].
  - intros [|i] r; discriminate.
  - now apply loop_well_numbered.
  - rewrite (load_after_save ws pack_dir fs fs' Hsave) in Hload.
    now injection Hload as <-.
Qed.

(** *** Runs of the scripted world *)

(** The scenario "demo" of the specification: 6.0 then 9.0 with a budget of
    three rounds ends after the second round with a pass. *)
Example scenario_demo :
  script_loop 5 (create_new "2025-01-01T00:00:00+00:00" "demo" 3 (85 # 10))
    [script_evaluation 6 []; script_evaluation 9 []; script_evaluation 9 []] =
  Finished _
    (mkWorkflowState "demo" "2025-01-01T00:00:00+00:00" 3 (85 # 10)
       [mkRoundState 1 "round 1" [("starting", "a starting screen")]
          (Some (script_evaluation 6 [])) 3 0;
        mkRoundState 2 "round 2" [("starting", "a starting screen")]
          (Some (script_evaluation 9 [])) 2 0]
       true "PASS: PASS - Score 9.0 ≥ threshold 8.5")
    (outcome_fs _
       (script_loop 5 (create_new "2025-01-01T00:00:00+00:00" "demo" 3 (85 # 10))
          [script_evaluation 6 []; script_evaluation 9 []]))
    [script_evaluation 9 []].
Proof. reflexivity. Qed.

(** The scenario "bad": a critical issue blocks after the first round. *)
Example scenario_bad :
  let o := script_loop 5
             (create_new "2025-01-01T00:00:00+00:00" "bad" 3 (85 # 10))
             [script_evaluation (95 # 10) ["oversized archive"];
              script_evaluation 9 []] in
  length (rounds (outcome_state _ o)) = 1%nat /\
  completion_reason (outcome_state _ o) =
  "BLOCKED: BLOCKED by 1 critical issue(s)".
Proof. split; reflexivity. Qed.

(** The scenario "slow": two rounds at 5.0 with a budget of two; no third
    round is run although an evaluation is left. *)
Example scenario_slow :
  let o := script_loop 5
             (create_new "2025-01-01T00:00:00+00:00" "slow" 2 (85 # 10))
             [script_evaluation 5 []; script_evaluation 5 [];
              script_evaluation 5 []] in
  length (rounds (outcome_state _ o)) = 2%nat /\
  completion_reason (outcome_state _ o) =
  "CONTINUE: Max rounds reached with score 5.0/10".
Proof. split; reflexivity. Qed.

Lemma no_round_after_terminal_witness :
  exists new,
    rounds (outcome_state _
              (script_loop 3 (one_round_state 3 (85 # 10) 9 [])
                 [script_evaluation 5 []])) =
    (rounds (one_round_state 3 (85 # 10) 9 []) ++ new)%list /\
    new = [].
Proof.
  destruct (proj1 (no_round_after_terminal fmt_1f (list PackEvaluation)
                     script_collaborators script_clock script_deliverables)
              3%nat "packs/demo" (one_round_state 3 (85 # 10) 9 []) demo_fs
              [script_evaluation 5 []]) as (new & Hrounds & Hstop & _).
  exists new. split; [exact Hrounds|]. apply Hstop. reflexivity.
Defined.

Lemma round_numbers_contiguous_witness :
  let ws := outcome_state _
              (script_loop 5
                 (create_new "2025-01-01T00:00:00+00:00" "demo" 3 (85 # 10))
                 [script_evaluation 6 []; script_evaluation 9 []]) in
  length (rounds ws) = 2%nat /\
  current_round ws = len (rounds ws) + 1 /\
  forall i r, nth_error (rounds ws) i = Some r -> round_num r = Z.of_nat i + 1.
Proof.
  split; [reflexivity|].
  apply (round_numbers_contiguous fmt_1f (list PackEvaluation)
           script_collaborators).
  apply driver_state_loop, driver_state_new.
Defined.

Lemma save_load_roundtrip_witness :
  exists fs', save sample_state "packs/demo" demo_fs = Ok fs' /\
              load "packs/demo" fs' = Ok (Some sample_state).
Proof.
  eexists. split; [reflexivity|].
  apply (save_load_roundtrip sample_state "packs/demo" demo_fs).
  reflexivity.
Defined.

(** ** The critic *)




Lemma dict_lookup_set {V : Type} (d : list (string * V)) (k : string) (v : V) :
  Dict.lookup (Dict.set d k v) k = Some v.
Proof.
  induction d as [|[k' w] d IH]; simpl.
  - now rewrite String.eqb_refl.
  - destruct (String.eqb k' k) eqn:E; simpl; rewrite E; [reflexivity | exact IH].
Qed.






(** ** Oversized listing photos *)

Lemma in_insert_by_name (x y : ImageFile) (l : list ImageFile) :
  In x (insert_by_name y l) <-> x = y \/ In x l.
Proof.
  induction l as [|z l IH]; simpl.
  - intuition congruence.
  - destruct (String.leb (img_name y) (img_name z)); simpl.
    + intuition congruence.
    + rewrite IH. intuition congruence.
Qed.

Lemma in_sorted_by_name (x : ImageFile) (l : list ImageFile) :
  In x (sorted_by_name l) <-> In x l.
Proof.
  induction l as [|y l IH]; simpl; [reflexivity|].
  rewrite in_insert_by_name, IH. intuition congruence.
Qed.

Lemma in_enumerate_from {A : Type} (x : A) (l : list A) (start : Z) :
  In x l -> exists idx, In (idx, x) (enumerate_from start l).
Proof.
  revert start. induction l as [|y l IH]; intros start; [intros []|].
  intros [->|H].
  - exists start. now left.
  - destruct (IH (start + 1) H) as (idx & Hidx). exists idx. now right.
Qed.

(** Each photo only adds to the two lists. *)
Lemma listing_step_report (errors warnings : list string)
    (entry : Z * ImageFile) :
  listing_step (errors, warnings) entry =
  ((errors ++ fst (photo_report entry))%list,
   (warnings ++ snd (photo_report entry))%list).
Proof.
  unfold photo_report, listing_step. destruct entry as [idx img].
  destruct (img_open img) as [[width height]|e]; unfold append.
  - destruct (_ || _); destruct (_ && _);
      destruct (gt (size_mb (img_st_size img)) 1);
      destruct (gt (size_mb (img_st_size img)) 2);
      cbn [fst snd app]; rewrite <- ?app_assoc, ?app_nil_r; reflexivity.
  - cbn [fst snd app]. now rewrite app_nil_r.
Qed.

Lemma fold_listing_step (entries : list (Z * ImageFile)) :
  forall errors warnings,
  fold_left listing_step entries (errors, warnings) =
  ((errors ++ flat_map (fun en => fst (photo_report en)) entries)%list,
   (warnings ++ flat_map (fun en => snd (photo_report en)) entries)%list).
Proof.
  induction entries as [|en entries IH]; intros errors warnings;
    cbn [fold_left flat_map].
  - now rewrite !app_nil_r.
  - rewrite listing_step_report, IH, <- !app_assoc. reflexivity.
Qed.

Lemma gt_2_gt_1 (q : Q) : gt q 2 = true -> gt q 1 = true.
Proof.
  unfold gt. intros H. apply negb_true_iff in H. apply negb_true_iff.
  destruct (Qle_bool q 1) eqn:E; [|reflexivity].
  apply Qle_bool_iff in E.
  assert (H2 : (q <= 2)%Q) by (apply Qle_trans with 1%Q; [exact E | discriminate]).
  apply Qle_bool_iff in H2. congruence.
Qed.

(** A photo that opens and weighs more than 2 MB is reported in both lists. *)
Lemma photo_report_oversize (idx : Z) (img : ImageFile) (width height : Z) :
  img_open img = Ok (width, height) ->
  gt (size_mb (img_st_size img)) 2 = true ->
  In (oversize_error img) (fst (photo_report (idx, img))) /\
  snd (photo_report (idx, img)) = [oversize_warning img].
Proof.
  intros Hopen H2. pose proof (gt_2_gt_1 _ H2) as H1.
  unfold photo_report, listing_step. rewrite Hopen, H1, H2. unfold append.
  split; [|reflexivity].
  cbn [fst]. apply in_or_app. right. left. reflexivity.
Qed.

(** C10, as stated, fails on a photo that cannot be opened: it weighs more
    than 2 MB and is reported once, as a failure to validate, and not in the
    warnings. *)
Lemma oversize_unreadable_photo_not_reported_twice :
  ~ (forall (files : list ImageFile) (img : ImageFile),
       In img files ->
       gt (size_mb (img_st_size img)) 2 = true ->
       In (oversize_warning img)
          (snd (fst (validate_etsy_listings (Some files)))) /\
       In (oversize_error img)
          (fst (fst (validate_etsy_listings (Some files))))).
Proof.
  intros H.
  destruct (H [corrupt_photo] corrupt_photo (or_introl eq_refl) eq_refl)
    as [Hwarning _].
  exact Hwarning.
Qed.

(** C10, amended. A listing photo that opens as an image and weighs more
    than 2 MB is reported twice by [validate_etsy_listings], in the warnings
    (over 1 MB) and in the errors (over 2 MB); the issues and the score of
    [compute_automated_score] take the errors of the listing validation and
    not its warnings. *)
Theorem oversize_listing_photo_reported_twice (p : PackDir)
    (files : list ImageFile) (img : ImageFile) (width height : Z) :
  listing_jpgs p = Some files ->
  In img files ->
  img_open img = Ok (width, height) ->
  gt (size_mb (img_st_size img)) 2 = true ->
  let errors := fst (fst (validate_etsy_listings (Some files))) in
  let warnings := snd (fst (validate_etsy_listings (Some files))) in
  let oi := fst (validate_technical_overlays
                   (path_join (pack_path p) "03_final") (final_pngs p)) in
  let zi := fst (validate_etsy_downloads (zips p)) in
  In (oversize_warning img) warnings /\
  In (oversize_error img) errors /\
  snd (compute_automated_score p) = ((oi ++ errors) ++ zi)%list /\
  (fst (compute_automated_score p) ==
   Qmax 0 (10 - inject_Z (Z.of_nat (length oi + length errors + length zi)) *
                (1 # 2)))%Q.
Proof.
  intros Hfiles Hin Hopen Hsize. cbv zeta.
  assert (Hreport :
    In (oversize_warning img)
       (snd (fst (validate_etsy_listings (Some files)))) /\
    In (oversize_error img)
       (fst (fst (validate_etsy_listings (Some files))))).
  { unfold validate_etsy_listings.
    apply in_sorted_by_name in Hin.
    destruct (sorted_by_name files) as [|first others] eqn:Hsorted;
      [destruct Hin|].
    destruct (in_enumerate_from img (first :: others) 0 Hin) as (idx & Hidx).
    rewrite fold_listing_step. cbn [fst snd app].
    destruct (photo_report_oversize idx img width height Hopen Hsize)
      as [Herr Hwarn].
    split; apply in_flat_map; exists (idx, img); split; try exact Hidx.
    - rewrite Hwarn. now left.
    - exact Herr. }
  destruct Hreport as [Hw He]. split; [exact Hw|]. split; [exact He|].
  pose proof (automated_score_unfolded p) as Hscore. cbv zeta in Hscore.
  rewrite Hfiles in Hscore. exact Hscore.
Qed.

Lemma oversize_listing_photo_reported_twice_witness :
  In "01_hero.jpg: Size 3.0MB > 1MB (Etsy recommends ≤1MB for faster loading)"
     (snd (fst (validate_etsy_listings (Some [heavy_photo])))) /\
  In "01_hero.jpg: Size 3.0MB exceeds Etsy's 2MB limit"
     (fst (fst (validate_etsy_listings (Some [heavy_photo])))) /\
  snd (compute_automated_score (pack_with_listing heavy_photo)) =
    ["01_hero.jpg: Size 3.0MB exceeds Etsy's 2MB limit"] /\
  (fst (compute_automated_score (pack_with_listing heavy_photo)) == 95 # 10)%Q.
Proof.
  destruct (oversize_listing_photo_reported_twice
              (pack_with_listing heavy_photo) [heavy_photo] heavy_photo
              3000 2400 eq_refl (or_introl eq_refl) eq_refl eq_refl)
    as (Hw & He & Hissues & Hscore).
  split; [exact Hw|]. split; [exact He|]. split; [exact Hissues|].
  rewrite Hscore. reflexivity.
Defined.

(** * Further properties *)

(** ** The validators *)

Lemma len_zero_iff {A : Type} (l : list A) : (len l =? 0) = true <-> l = [].
Proof.
  unfold len. destruct l; simpl; split; intros H; try reflexivity;
    try discriminate.
Qed.

Lemma flat_map_nil_iff {A B : Type} (f : A -> list B) (l : list A) :
  flat_map f l = [] <-> Forall (fun x => f x = []) l.
Proof.
  induction l as [|x l IH]; simpl.
  - split; [constructor | reflexivity].
  - split.
    + intros H. apply app_eq_nil in H as [H1 H2].
      constructor; [exact H1 | now apply IH].
    + intros H. inversion H as [|? ? H1 H2]; subst.
      rewrite H1. now apply IH.
Qed.

(** Above [k] MiB means more than [k * 2^20] bytes. *)
Lemma gt_size_mb (st_size k : Z) :
  gt (size_mb st_size) (inject_Z k) = (k * 1048576 <? st_size).
Proof.
  unfold gt, size_mb, Qle_bool, inject_Z. cbn [Qnum Qden].
  rewrite Z.mul_1_r. rewrite Z.ltb_antisym. reflexivity.
Qed.

Lemma overlay_step_report (issues : list string) (img : ImageFile) :
  overlay_step issues img = (issues ++ overlay_step [] img)%list.
Proof.
  unfold overlay_step, append.
  destruct (img_open img) as [[width height]|e]; [|reflexivity].
  destruct (negb _); [reflexivity | now rewrite app_nil_r].
Qed.

Lemma fold_overlay_step (files : list ImageFile) :
  forall issues,
  fold_left overlay_step files issues =
  (issues ++ flat_map (overlay_step []) files)%list.
Proof.
  induction files as [|img files IH]; intros issues; cbn [fold_left flat_map].
  - now rewrite app_nil_r.
  - rewrite IH, (overlay_step_report issues), <- app_assoc. reflexivity.
Qed.

Lemma overlay_step_nil_iff (img : ImageFile) :
  overlay_step [] img = [] <-> overlay_ok img = true.
Proof.
  unfold overlay_step, overlay_ok, append.
  destruct (img_open img) as [[width height]|e].
  - destruct ((width =? 1920) && (height =? 1080)); cbn; split;
      intros H; try reflexivity; discriminate.
  - cbn. split; discriminate.
Qed.

(** X1. The overlay validation passes exactly when the directory exists,
    holds at least one PNG and every PNG opens at 1920 by 1080; and it
    passes exactly when it reports no issue. *)
Theorem overlays_pass_iff (final_path : string)
    (final_dir : option (list ImageFile)) :
  (snd (validate_technical_overlays final_path final_dir) = true <->
   exists files, final_dir = Some files /\ files <> [] /\
                 forallb overlay_ok files = true) /\
  (snd (validate_technical_overlays final_path final_dir) = true <->
   fst (validate_technical_overlays final_path final_dir) = []).
Proof.
  unfold validate_technical_overlays.
  destruct final_dir as [[|img files]|]; cbn [fst snd].
  - split; split; try discriminate. intros (files & [= <-] & H & _). congruence.
  - rewrite len_zero_iff, fold_overlay_step. cbn [app].
    split; [|reflexivity].
    rewrite flat_map_nil_iff, Forall_forall. split.
    + intros H. exists (img :: files). split; [reflexivity|].
      split; [discriminate|]. apply forallb_forall. intros x Hx.
      now apply overlay_step_nil_iff, H.
    + intros (files' & [= <-] & _ & H) x Hx.
      apply overlay_step_nil_iff. now apply (proj1 (forallb_forall _ _) H).
  - split; split; try discriminate. intros (files & [=] & _).
Qed.

Lemma listing_report_nil_iff (entry : Z * ImageFile) :
  fst (photo_report entry) = [] <-> listing_ok entry = true.
Proof.
  unfold photo_report, listing_step, listing_ok, append.
  destruct entry as [idx img]. cbn [fst snd].
  destruct (img_open img) as [[width height]|e].
  - change 2%Q with (inject_Z 2). change 1%Q with (inject_Z 1).
    rewrite !gt_size_mb.
    destruct (Z.ltb_spec width 2000), (Z.ltb_spec height 2000),
      (Z.eqb_spec idx 0), (Z.ltb_spec width height),
      (Z.ltb_spec (1 * 1048576) (img_st_size img)),
      (Z.ltb_spec (2 * 1048576) (img_st_size img)),
      (Z.leb_spec 2000 width), (Z.leb_spec 2000 height),
      (Z.leb_spec height width), (Z.leb_spec (img_st_size img) 2097152);
      try lia; cbn; split; intros H'; try reflexivity; discriminate.
  - cbn. split; discriminate.
Qed.

(** X2. The listing validation passes exactly when the directory is absent
    or every JPG, taken in name order, opens with both sides of at least
    2000 pixels and weighs at most 2 MiB, the first one not being portrait.
    Warnings (over 1 MiB) do not make it fail. *)
Theorem listings_pass_iff (listing_dir : option (list ImageFile)) :
  snd (validate_etsy_listings listing_dir) = true <->
  match listing_dir with
  | None => True
  | Some files =>
      forallb listing_ok (enumerate_from 0 (sorted_by_name files)) = true
  end.
Proof.
  unfold validate_etsy_listings. destruct listing_dir as [files|];
    [|now split].
  destruct (sorted_by_name files) as [|first others]; [now split|].
  rewrite fold_listing_step. cbn [fst snd app].
  rewrite len_zero_iff, flat_map_nil_iff, Forall_forall, forallb_forall.
  split; intros H x Hx; now apply listing_report_nil_iff, H.
Qed.

Lemma zip_step_report (issues : list string) (z : ZipFile) :
  zip_step issues z = (issues ++ zip_step [] z)%list.
Proof.
  unfold zip_step, append. destruct (gt _ _); [reflexivity|].
  now rewrite app_nil_r.
Qed.

Lemma fold_zip_step (zs : list ZipFile) :
  forall issues,
  fold_left zip_step zs issues = (issues ++ flat_map (zip_step []) zs)%list.
Proof.
  induction zs as [|z zs IH]; intros issues; cbn [fold_left flat_map].
  - now rewrite app_nil_r.
  - rewrite IH, (zip_step_report issues), <- app_assoc. reflexivity.
Qed.

Lemma zip_step_nil_iff (z : ZipFile) :
  zip_step [] z = [] <-> zip_st_size z <= 20971520.
Proof.
  unfold zip_step, append. change 20%Q with (inject_Z 20).
  rewrite gt_size_mb. destruct (Z.ltb_spec (20 * 1048576) (zip_st_size z));
    cbn; split; intros H'; try reflexivity; try discriminate; lia.
Qed.

(** X3. The archive validation passes exactly when the directory is absent
    or holds at most five ZIP files, each of at most 20 MiB. *)
Theorem downloads_pass_iff (zips_dir : option (list ZipFile)) :
  snd (validate_etsy_downloads zips_dir) = true <->
  match zips_dir with
  | None => True
  | Some zip_files =>
      (length zip_files <= 5)%nat /\
      Forall (fun z => zip_st_size z <= 20971520) zip_files
  end.
Proof.
  unfold validate_etsy_downloads. destruct zips_dir as [[|z zs]|];
    [split; [intros _; split; [cbn; lia | constructor] | reflexivity] | |
     now split].
  cbn [snd]. rewrite len_zero_iff, fold_zip_step.
  set (zip_files := z :: zs). unfold len.
  destruct (Z.gtb_spec (Z.of_nat (length zip_files)) 5) as [Hmany|Hfew].
  - split; [discriminate|]. intros [H _]. lia.
  - cbn [app]. rewrite flat_map_nil_iff. split.
    + intros H. split; [lia|].
      apply Forall_impl with (2 := H). intros a. apply zip_step_nil_iff.
    + intros [_ H]. apply Forall_impl with (2 := H). intros a.
      apply zip_step_nil_iff.
Qed.

(** ** Critical issues *)

Lemma contains_app_r (needle a b : string) :
  contains needle b = true -> contains needle (a ++ b) = true.
Proof.
  intros H. induction a as [|c a IH]; [exact H|].
  cbn [String.append contains]. rewrite IH. apply orb_true_r.
Qed.

Lemma fold_left_select {A : Type} (keep : A -> bool) (f : A -> A)
    (l : list A) :
  forall acc,
  fold_left (fun c i => if keep i then append c (f i) else c) l acc =
  (acc ++ map f (filter keep l))%list.
Proof.
  induction l as [|x l IH]; intros acc; cbn [fold_left filter].
  - now rewrite app_nil_r.
  - rewrite IH. destruct (keep x); [|reflexivity].
    unfold append. now rewrite <- app_assoc.
Qed.

(** The critical issues when the final directory exists. *)
Lemma check_critical_issues_unfold (p : PackDir) (files : list ImageFile) :
  final_pngs p = Some files ->
  check_critical_issues p =
  (((if negb (truthy_list files)
     then ["No overlay PNG files found in 03_final/"] else []) ++
    map (String.append "CRITICAL: ")
      (filter (fun issue => contains "wrong resolution" (lower issue))
         (fst (validate_technical_overlays
                 (path_join (pack_path p) "03_final") (final_pngs p))))) ++
   match zips p with
   | None => []
   | Some _ =>
       map (String.append "CRITICAL: ")
         (filter (fun issue => contains "exceeds" (lower issue) &&
                               contains "20mb" (lower issue))
            (fst (validate_etsy_downloads (zips p))))
   end)%list.
Proof.
  intros Hfiles. unfold check_critical_issues. rewrite Hfiles.
  destruct (validate_technical_overlays _ _) as [oi op]. cbn [fst].
  rewrite (fold_left_select
             (fun issue => contains "wrong resolution" (lower issue))
             (String.append "CRITICAL: ")).
  destruct (zips p) as [zs|]; [|now rewrite app_nil_r].
  destruct (validate_etsy_downloads (Some zs)) as [zi zp]. cbn [fst].
  now rewrite (fold_left_select
                 (fun issue => contains "exceeds" (lower issue) &&
                               contains "20mb" (lower issue))
                 (String.append "CRITICAL: ")).
Qed.

Lemma overlay_issues_of_files (path : string) (files : list ImageFile) :
  files <> [] ->
  fst (validate_technical_overlays path (Some files)) =
  flat_map (overlay_step []) files.
Proof.
  intros H. unfold validate_technical_overlays.
  destruct files as [|img files]; [congruence|].
  cbn [fst]. now rewrite fold_overlay_step.
Qed.

(** X4. Every overlay that opens at another size than 1920 by 1080 is a
    critical issue of the pack. *)
Theorem wrong_resolution_is_critical (p : PackDir) (files : list ImageFile)
    (img : ImageFile) (width height : Z) :
  final_pngs p = Some files ->
  In img files ->
  img_open img = Ok (width, height) ->
  (width, height) <> (1920, 1080) ->
  In ("CRITICAL: " ++ wrong_resolution_issue img width height)
     (check_critical_issues p).
Proof.
  intros Hfiles Hin Hopen Hsize.
  rewrite (check_critical_issues_unfold p files Hfiles).
  apply in_or_app. left. apply in_or_app. right.
  apply in_map. apply filter_In. split; [|reflexivity].
  rewrite Hfiles, overlay_issues_of_files by (intros ->; destruct Hin).
  apply in_flat_map. exists img. split; [exact Hin|].
  unfold overlay_step. rewrite Hopen.
  assert (Hne : negb ((width =? 1920) && (height =? 1080)) = true).
  { apply negb_true_iff. apply andb_false_iff.
    destruct (Z.eqb_spec width 1920) as [->|]; [|now left].
    destruct (Z.eqb_spec height 1080) as [->|]; [congruence | now right]. }
  rewrite Hne. left. reflexivity.
Qed.

Lemma wrong_resolution_is_critical_witness :
  In "CRITICAL: Overlay wrong resolution: starting_02.png is 1280x720, expected 1920x1080"
     (check_critical_issues flawed_pack).
Proof.
  apply (wrong_resolution_is_critical flawed_pack [good_overlay; bad_overlay]
           bad_overlay 1280 720).
  - reflexivity.
  - right. left. reflexivity.
  - reflexivity.
  - discriminate.
Defined.

Lemma zip_issues_of_files (zs : list ZipFile) (z : ZipFile) :
  In z zs -> 20971520 < zip_st_size z ->
  In (oversized_archive_issue z) (fst (validate_etsy_downloads (Some zs))).
Proof.
  intros Hin Hsize. unfold validate_etsy_downloads.
  destruct zs as [|z0 zs]; [destruct Hin|].
  cbn [fst]. rewrite fold_zip_step. apply in_or_app. right.
  apply in_flat_map. exists z. split; [exact Hin|].
  unfold zip_step, append. change 20%Q with (inject_Z 20).
  rewrite gt_size_mb.
  destruct (Z.ltb_spec (20 * 1048576) (zip_st_size z)); [|lia].
  left. reflexivity.
Qed.

(** X5. When the final directory exists, every archive of more than 20 MiB
    is a critical issue of the pack. *)
Theorem oversized_archive_is_critical (p : PackDir) (files : list ImageFile)
    (zs : list ZipFile) (z : ZipFile) :
  final_pngs p = Some files ->
  zips p = Some zs ->
  In z zs ->
  20971520 < zip_st_size z ->
  In ("CRITICAL: " ++ oversized_archive_issue z) (check_critical_issues p).
Proof.
  intros Hfiles Hzips Hin Hsize.
  rewrite (check_critical_issues_unfold p files Hfiles), Hzips.
  apply in_or_app. right. apply in_map. apply filter_In.
  split; [now apply zip_issues_of_files|].
  unfold oversized_archive_issue. rewrite !lower_app.
  apply andb_true_iff. split; repeat apply contains_app_r; reflexivity.
Qed.

Lemma oversized_archive_is_critical_witness :
  In "CRITICAL: overlays.zip: Size 21.0MB exceeds Etsy's 20MB limit"
     (check_critical_issues flawed_pack).
Proof.
  apply (oversized_archive_is_critical flawed_pack [good_overlay; bad_overlay]
           [mkZipFile "overlays.zip" 22020096]
           (mkZipFile "overlays.zip" 22020096)).
  - reflexivity.
  - reflexivity.
  - left. reflexivity.
  - reflexivity.
Defined.

(** X6. A pack on which the automated checks find no issue has no critical
    issue, and its automated score is 10. *)
Theorem no_issue_no_critical_issue (p : PackDir) :
  snd (compute_automated_score p) = [] ->
  check_critical_issues p = [] /\
  (fst (compute_automated_score p) == 10)%Q.
Proof.
  rewrite compute_automated_score_unfold. cbn [fst snd]. intros H.
  split; [|now rewrite H].
  apply app_eq_nil in H as [H Hzi]. apply app_eq_nil in H as [Hoi _].
  destruct (final_pngs p) as [[|img files]|] eqn:Hfiles;
    try (cbn in Hoi; discriminate).
  rewrite (check_critical_issues_unfold p _ Hfiles), Hfiles, Hoi.
  cbn [truthy_list negb filter map app].
  destruct (zips p) as [zs|]; [|reflexivity].
  now rewrite Hzi.
Qed.

Lemma no_issue_no_critical_issue_witness :
  check_critical_issues (pack_with_bad_overlays 0) = [] /\
  (fst (compute_automated_score (pack_with_bad_overlays 0)) == 10)%Q.
Proof.
  apply (no_issue_no_critical_issue (pack_with_bad_overlays 0)). reflexivity.
Defined.

(** ** What [evaluate_pack] returns *)

Lemma build_evaluation_fields (pack_name : string) (parsed : json)
    (automated_score : Q) (automated_issues critical_issues0 : list string)
    (ev : PackEvaluation) :
  _build_evaluation_from_response pack_name parsed automated_score
    automated_issues critical_issues0 = Ok ev ->
  pe_pack_name ev = pack_name /\
  automated_checks_passed ev = (len automated_issues =? 0) /\
  exists more, critical_issues ev = (critical_issues0 ++ more)%list.
Proof.
  unfold _build_evaluation_from_response.
  repeat match goal with
         | |- context [bind ?m _] =>
             destruct m; cbn [bind]; [|discriminate]
         end.
  intros [= <-]. cbn. eauto.
Qed.

Section CriticFacts.

Variable json_loads : string -> json + string.
Variable repr_float : Q -> string.

Local Abbreviation evaluate := (evaluate_pack json_loads repr_float).

(** The three ways [evaluate_pack] returns an evaluation. *)
Lemma evaluate_pack_returns (pack_name : string) (p : PackDir)
    (env : CriticEnv) (dry_run : bool) (ev : PackEvaluation) :
  evaluate pack_name p env dry_run = Ok ev ->
  exists pngs,
    final_pngs p = Some pngs /\ pngs <> [] /\
    let groups := fold_left group_step (sorted_by_name pngs) [] in
    let a := fst (compute_automated_score p) in
    let issues := snd (compute_automated_score p) in
    let critical := check_critical_issues p in
    (dry_run = true /\
     ev = _create_mock_evaluation repr_float pack_name groups a issues
            critical) \/
    (dry_run = false /\
     (ev = _create_fallback_evaluation pack_name groups a issues critical \/
      exists parsed,
        _build_evaluation_from_response pack_name parsed a issues critical =
        Ok ev)).
Proof.
  unfold evaluate_pack.
  destruct (negb _ && negb dry_run); [discriminate|].
  destruct (final_pngs p) as [pngs|]; [|discriminate].
  destruct (negb (truthy_list _)) eqn:Hgroups; [discriminate|].
  destruct (compute_automated_score p) as [a issues].
  intros H. exists pngs. split; [reflexivity|]. split.
  { intros ->. discriminate Hgroups. }
  cbn [fst snd]. destruct dry_run.
  - left. split; [reflexivity|]. now injection H as <-.
  - right. split; [reflexivity|].
    destruct (api_response env) as [response_text|e]; [|discriminate].
    cbn [bind] in H.
    destruct (parse_critic_response json_loads response_text)
      as [parsed|[]]; try discriminate.
    + right. now exists parsed.
    + left. now injection H as <-.
Qed.

(** X7. Whatever way [evaluate_pack] returns an evaluation (dry run,
    fallback, or the answer of the critic), the evaluation bears the name
    of the pack, its [automated_checks_passed] tells whether the automated
    checks found no issue, and its critical issues start with all those of
    the automated check: the critic can add critical issues, not remove
    any. *)
Theorem evaluation_keeps_automated_findings (pack_name : string)
    (p : PackDir) (env : CriticEnv) (dry_run : bool) (ev : PackEvaluation) :
  evaluate pack_name p env dry_run = Ok ev ->
  pe_pack_name ev = pack_name /\
  automated_checks_passed ev =
    (len (snd (compute_automated_score p)) =? 0) /\
  exists more,
    critical_issues ev = (check_critical_issues p ++ more)%list.
Proof.
  intros H. apply evaluate_pack_returns in H as (pngs & _ & _ & H).
  cbv zeta in H.
  destruct H as [[_ ->] | [_ [-> | (parsed & H)]]].
  - repeat split. exists []. now rewrite app_nil_r.
  - repeat split. exists []. now rewrite app_nil_r.
  - now apply build_evaluation_fields in H.
Qed.

(** X8. A pack with an overlay of the wrong resolution is blocked: whatever
    [evaluate_pack] returns for it, the state whose latest round carries
    that evaluation is stopped with the decision BLOCKED. *)
Theorem wrong_resolution_blocks (pack_name : string) (p : PackDir)
    (env : CriticEnv) (dry_run : bool) (ev : PackEvaluation)
    (files : list ImageFile) (img : ImageFile) (width height : Z)
    (ws : WorkflowState) (r : RoundState) :
  final_pngs p = Some files ->
  In img files ->
  img_open img = Ok (width, height) ->
  (width, height) <> (1920, 1080) ->
  evaluate pack_name p env dry_run = Ok ev ->
  evaluation r = Some ev ->
  exists reason,
    check_stopping_conditions repr_float (add_round ws r) =
    Ok (true, "BLOCKED", reason).
Proof.
  intros Hfiles Hin Hopen Hsize Hev Hr.
  apply evaluate_pack_returns in Hev as (pngs & _ & _ & Hev).
  cbv zeta in Hev.
  assert (Hcrit : exists more,
             critical_issues ev = (check_critical_issues p ++ more)%list).
  { destruct Hev as [[_ ->] | [_ [-> | (parsed & H)]]].
    - exists []. now rewrite app_nil_r.
    - exists []. now rewrite app_nil_r.
    - now apply build_evaluation_fields in H. }
  destruct Hcrit as (more & Hcrit).
  assert (Hne : truthy_list (critical_issues ev) = true).
  { rewrite Hcrit. rewrite (check_critical_issues_unfold p files Hfiles).
    assert (Hin' : In ("CRITICAL: " ++ wrong_resolution_issue img width height)
                      (map (String.append "CRITICAL: ")
                         (filter (fun issue =>
                                    contains "wrong resolution" (lower issue))
                            (fst (validate_technical_overlays
                                    (path_join (pack_path p) "03_final")
                                    (final_pngs p)))))).
    { apply in_map. apply filter_In. split; [|reflexivity].
      rewrite Hfiles, overlay_issues_of_files by (intros ->; destruct Hin).
      apply in_flat_map. exists img. split; [exact Hin|].
      unfold overlay_step. rewrite Hopen.
      assert (Hneq : negb ((width =? 1920) && (height =? 1080)) = true).
      { apply negb_true_iff. apply andb_false_iff.
        destruct (Z.eqb_spec width 1920) as [->|]; [|now left].
        destruct (Z.eqb_spec height 1080) as [->|]; [congruence | now right]. }
      rewrite Hneq. left. reflexivity. }
    destruct (map _ _) as [|x xs]; [destruct Hin'|].
    destruct (if negb (truthy_list files) then _ else _); reflexivity. }
  unfold check_stopping_conditions, should_continue.
  rewrite latest_evaluation_add_round, Hr, Hne. cbn [negb].
  eexists. reflexivity.
Qed.




End CriticFacts.

Lemma evaluation_keeps_automated_findings_witness :
  exists ev,
    evaluate_pack reject_all fmt_1f "demo" flawed_pack chatty_env false =
    Ok ev /\
    pe_pack_name ev = "demo" /\
    automated_checks_passed ev = false /\
    exists more,
      critical_issues ev = (check_critical_issues flawed_pack ++ more)%list.
Proof.
  destruct (evaluate_pack reject_all fmt_1f "demo" flawed_pack chatty_env false)
    as [ev|e] eqn:E; [|vm_compute in E; discriminate E].
  exists ev. split; [reflexivity|].
  destruct (evaluation_keeps_automated_findings reject_all fmt_1f "demo"
              flawed_pack chatty_env false ev E)
    as (Hname & Hpassed & Hcrit).
  split; [exact Hname|]. split; [exact Hpassed | exact Hcrit].
Defined.

Lemma wrong_resolution_blocks_witness :
  exists reason,
    check_stopping_conditions fmt_1f
      (add_round (create_new "2025-01-01T00:00:00+00:00" "demo" 3 (85 # 10))
         (mkRoundState 1 "round 1" [] (Some flawed_mock_evaluation) 3 0)) =
    Ok (true, "BLOCKED", reason).
Proof.
  apply (wrong_resolution_blocks reject_all fmt_1f "demo" flawed_pack
           chatty_env true flawed_mock_evaluation
           [good_overlay; bad_overlay] bad_overlay 1280 720).
  - reflexivity.
  - right. left. reflexivity.
  - reflexivity.
  - discriminate.
  - reflexivity.
  - reflexivity.
Defined.


(** ** Further properties of the driver *)

Section DriverBudget.

Variable repr_float : Q -> string.
Variable World : Type.
Variable collaborators :
  Z -> WorkflowState -> World -> World * result RoundOutput.
Variable clock : World -> string.
Variable deliverables : WorkflowState -> World -> World * result unit.

Local Abbreviation loop := (main_loop repr_float World collaborators).
Local Abbreviation driver :=
  (run_multi_agent_workflow repr_float World collaborators clock deliverables).

Lemma loop_max_rounds (pack_dir : string) (fuel : nat) :
  forall (ws : WorkflowState) (fs : file_system) (w : World),
  max_rounds (outcome_state World (loop fuel pack_dir ws fs w)) = max_rounds ws.
Proof.
  induction fuel as [|fuel IH]; intros ws fs w; [reflexivity|].
  destruct (loop_step repr_float World collaborators pack_dir fuel ws fs w)
    as [[_ ->] | [_ [(e & w1 & _ & ->) | (r & w1 & _ & Hr)]]];
    try reflexivity.
  destruct Hr as [(e & _ & ->)
                 | (fs1 & _ & [(_ & reason & ->) | (_ & ->)])];
    try reflexivity.
  now rewrite IH.
Qed.

(** X10. The loop never goes past the round budget: it leaves at most
    [max_rounds] rounds, or one round more than it started with when it
    started at or beyond the budget. *)
Theorem round_budget (pack_dir : string) (fuel : nat) (ws : WorkflowState)
    (fs : file_system) (w : World) :
  len (rounds (outcome_state World (loop fuel pack_dir ws fs w))) <=
  Z.max (len (rounds ws) + 1) (max_rounds ws).
Proof.
  revert ws fs w. induction fuel as [|fuel IH]; intros ws fs w.
  - cbn. lia.
  - assert (Hadd : forall r, len (rounds (add_round ws r)) = len (rounds ws) + 1).
    { intros r. unfold add_round, append, len. cbn [rounds].
      rewrite length_app. cbn. lia. }
    destruct (loop_step repr_float World collaborators pack_dir fuel ws fs w)
      as [[_ ->] | [_ [(e & w1 & _ & ->) | (r & w1 & Hrun & Hr)]]];
      try (cbn; lia).
    destruct Hr as [(e & _ & ->)
                   | (fs1 & _ & [(_ & reason & ->) | (Hgo & ->)])].
    + cbn [outcome_state]. rewrite Hadd. lia.
    + cbn [outcome_state].
      change (rounds (finalize (add_round ws r) reason))
        with (rounds (add_round ws r)).
      rewrite Hadd. lia.
    + apply run_round_result in Hrun as (_ & ev & Hev).
      pose proof (continues_within_budget repr_float (add_round ws r) ev) as Hb.
      rewrite latest_evaluation_add_round in Hb. specialize (Hb Hev Hgo).
      unfold current_round in Hb. rewrite Hadd in Hb.
      specialize (IH (add_round ws r) fs1 w1). rewrite Hadd in IH.
      change (max_rounds (add_round ws r)) with (max_rounds ws) in *.
      lia.
Qed.

Lemma run_round_recorded (n : Z) (ws : WorkflowState) (w w1 : World)
    (r : RoundState) :
  run_round repr_float World collaborators n ws w = (w1, Ok r) ->
  recorded_round (max_rounds ws) r.
Proof.
  unfold run_round, recorded_round.
  destruct (collaborators n ws w) as [w' [out|e]].
  - destruct (check_stopping_conditions repr_float ws).
    + intros [= _ <-]. cbn. repeat split. eexists. reflexivity.
    + intros [= _ H].
  - intros [= _ H].
Qed.

Lemma loop_recorded (pack_dir : string) (fuel : nat) :
  forall (ws : WorkflowState) (fs : file_system) (w : World),
  Forall (recorded_round (max_rounds ws)) (rounds ws) ->
  Forall (recorded_round (max_rounds ws))
         (rounds (outcome_state World (loop fuel pack_dir ws fs w))).
Proof.
  induction fuel as [|fuel IH]; intros ws fs w Hws; [exact Hws|].
  destruct (loop_step repr_float World collaborators pack_dir fuel ws fs w)
    as [[_ ->] | [_ [(e & w1 & _ & ->) | (r & w1 & Hrun & Hr)]]];
    try exact Hws.
  apply run_round_recorded in Hrun.
  assert (Hws1 : Forall (recorded_round (max_rounds (add_round ws r)))
                        (rounds (add_round ws r))).
  { unfold add_round, append. cbn [rounds max_rounds].
    apply Forall_app. split; [exact Hws | now constructor]. }
  destruct Hr as [(e & _ & ->)
                 | (fs1 & _ & [(_ & reason & ->) | (_ & ->)])];
    [exact Hws1 | exact Hws1 | exact (IH (add_round ws r) fs1 w1 Hws1)].
Qed.

Lemma driver_state_recorded (ws : WorkflowState) :
  driver_state repr_float World collaborators ws ->
  Forall (recorded_round (max_rounds ws)) (rounds ws).
Proof.
  intros H.
  induction H as [now pack_name max_rounds quality_threshold
                 | fuel pack_dir ws fs w _ IH
                 | pack_dir ws loaded fs fs' _ IH Hsave Hload].
  - constructor.
  - rewrite loop_max_rounds. now apply loop_recorded.
  - rewrite (load_after_save ws pack_dir fs fs' Hsave) in Hload.
    now injection Hload as <-.
Qed.

(** X11. In every workflow state of the driver, each round carries an
    evaluation, the number of variants the policy gives for its round
    number (3, 2, then 1) and a cost of zero. *)
Theorem driver_rounds_recorded (ws : WorkflowState) :
  driver_state repr_float World collaborators ws ->
  Forall (recorded_round (max_rounds ws)) (rounds ws).
Proof. exact (driver_state_recorded ws). Qed.

(** X12. When the loop is stopped between two iterations, the state file
    holds the workflow state as it is in memory, provided it did so at the
    start or a round has been run. *)
Theorem interrupted_loop_is_persisted (pack_dir : string) (fuel : nat)
    (ws ws' : WorkflowState) (fs fs' : file_system) (w w' : World) :
  loop fuel pack_dir ws fs w = OutOfFuel World ws' fs' w' ->
  load pack_dir fs = Ok (Some ws) \/ rounds ws' <> rounds ws ->
  load pack_dir fs' = Ok (Some ws').
Proof.
  revert ws fs w. induction fuel as [|fuel IH]; intros ws fs w Hloop Hstart.
  - injection Hloop as <- <- <-. destruct Hstart as [H|H]; [exact H | congruence].
  - destruct (loop_step repr_float World collaborators pack_dir fuel ws fs w)
      as [[_ H] | [_ [(e & w1 & _ & H) | (r & w1 & _ & Hr)]]];
      try (rewrite H in Hloop; discriminate).
    destruct Hr as [(e & _ & H)
                   | (fs1 & Hsave & [(_ & reason & H) | (_ & H)])];
      try (rewrite H in Hloop; discriminate).
    rewrite H in Hloop. apply (IH _ _ _ Hloop). left.
    now apply load_after_save with fs.
Qed.

(** X13. The state a finished run of the driver returns is completed and is
    the state that loading the state file gives afterwards. *)
Theorem finished_run_is_persisted (fuel : nat) (packs_root pack_name : string)
    (max_rounds : Z) (quality_threshold : Q) (fs fs1 : file_system)
    (w w1 : World) (ws1 : WorkflowState) :
  driver fuel packs_root pack_name max_rounds quality_threshold fs w =
  Ok (Finished World ws1 fs1 w1) ->
  completed ws1 = true /\
  load (path_join packs_root pack_name) fs1 = Ok (Some ws1).
Proof.
  unfold run_multi_agent_workflow.
  set (pack_dir := path_join packs_root pack_name).
  destruct (negb (exists_path fs pack_dir)); [discriminate|].
  destruct (negb (exists_path fs (path_join pack_dir "config.yaml")));
    [discriminate|].
  destruct (load pack_dir fs) as [loaded|e]; cbn [bind]; [|discriminate].
  set (ws0 := match loaded with
              | Some ws => ws
              | None => create_new (clock w) pack_name max_rounds
                                   quality_threshold
              end).
  destruct (loop fuel pack_dir ws0 fs w) as [wsl fsl wl| |] eqn:Hloop;
    try discriminate.
  destruct (save wsl pack_dir fsl) as [fs2|e] eqn:Hsave; [|discriminate].
  destruct (deliverables wsl wl) as [w2 [[]|e]]; [|discriminate].
  intros [= <- <- <-].
  destruct (loop_rounds repr_float World collaborators pack_dir fuel ws0 fs w)
    as (new & _ & _ & Hfin).
  split; [apply (Hfin wsl fsl wl Hloop) | now apply load_after_save with fsl].
Qed.

End DriverBudget.

Lemma round_budget_witness :
  len (rounds (outcome_state _
                 (script_loop 9
                    (create_new "2025-01-01T00:00:00+00:00" "slow" 2 (85 # 10))
                    [script_evaluation 5 []; script_evaluation 5 [];
                     script_evaluation 5 []; script_evaluation 5 []]))) <= 2.
Proof.
  apply (round_budget fmt_1f (list PackEvaluation) script_collaborators
           "packs/demo" 9
           (create_new "2025-01-01T00:00:00+00:00" "slow" 2 (85 # 10)) demo_fs).
Defined.

Lemma driver_rounds_recorded_witness :
  Forall (recorded_round 3)
    (rounds (outcome_state _
               (script_loop 5
                  (create_new "2025-01-01T00:00:00+00:00" "demo" 3 (85 # 10))
                  [script_evaluation 6 []; script_evaluation 9 []]))).
Proof.
  apply (driver_rounds_recorded fmt_1f (list PackEvaluation)
           script_collaborators
           (outcome_state _
              (script_loop 5
                 (create_new "2025-01-01T00:00:00+00:00" "demo" 3 (85 # 10))
                 [script_evaluation 6 []; script_evaluation 9 []]))).
  apply driver_state_loop, driver_state_new.
Defined.

Lemma interrupted_loop_is_persisted_witness :
  exists ws' fs' w',
    script_loop 1 (create_new "2025-01-01T00:00:00+00:00" "demo" 3 (85 # 10))
      [script_evaluation 6 []; script_evaluation 9 []] =
    OutOfFuel _ ws' fs' w' /\
    load "packs/demo" fs' = Ok (Some ws').
Proof.
  destruct (script_loop 1
              (create_new "2025-01-01T00:00:00+00:00" "demo" 3 (85 # 10))
              [script_evaluation 6 []; script_evaluation 9 []])
    as [ws' fs' w' | e ws' fs' w' | ws' fs' w'] eqn:E;
    [discriminate E | discriminate E |].
  exists ws', fs', w'. split; [reflexivity|].
  apply (interrupted_loop_is_persisted fmt_1f (list PackEvaluation)
           script_collaborators "packs/demo" 1
           (create_new "2025-01-01T00:00:00+00:00" "demo" 3 (85 # 10))
           ws' demo_fs fs'
           [script_evaluation 6 []; script_evaluation 9 []] w' E).
  right. injection E as <- _ _. discriminate.
Defined.

Lemma finished_run_is_persisted_witness :
  exists ws1 fs1 w1,
    run_multi_agent_workflow fmt_1f (list PackEvaluation) script_collaborators
      script_clock script_deliverables 5 "packs" "demo" 3 (85 # 10) demo_fs
      [script_evaluation 6 []; script_evaluation 9 []] =
    Ok (Finished _ ws1 fs1 w1) /\
    completed ws1 = true /\
    load (path_join "packs" "demo") fs1 = Ok (Some ws1).
Proof.
  destruct (run_multi_agent_workflow fmt_1f (list PackEvaluation)
              script_collaborators script_clock script_deliverables 5
              "packs" "demo" 3 (85 # 10) demo_fs
              [script_evaluation 6 []; script_evaluation 9 []])
    as [[ws1 fs1 w1 | e ws1 fs1 w1 | ws1 fs1 w1] | e] eqn:E;
    [| discriminate E | discriminate E | discriminate E].
  exists ws1, fs1, w1. split; [reflexivity|].
  exact (finished_run_is_persisted fmt_1f (list PackEvaluation)
           script_collaborators script_clock script_deliverables 5
           "packs" "demo" 3 (85 # 10) demo_fs fs1
           [script_evaluation 6 []; script_evaluation 9 []] w1 ws1 E).
Defined.

(** ** Loading documents that [save] did not write *)

(** X14. A state document needs the keys pack_name, started_at and
    max_rounds only: when rounds, quality_threshold, completed and
    completion_reason are missing, it loads with no round, the threshold
    8.5, not completed and an empty reason. Without pack_name (and without
    rounds) loading raises [KeyError]. *)
Theorem load_data_defaults (entries : list (string * json)) :
  Dict.lookup entries "rounds" = None ->
  (forall (p s : string) (m : Z),
     Dict.lookup entries "pack_name" = Some (JStr p) ->
     Dict.lookup entries "started_at" = Some (JStr s) ->
     Dict.lookup entries "max_rounds" = Some (JInt m) ->
     Dict.lookup entries "quality_threshold" = None ->
     Dict.lookup entries "completed" = None ->
     Dict.lookup entries "completion_reason" = None ->
     load_data (JDict entries) =
     Ok (mkWorkflowState p s m (85 # 10) [] false "")) /\
  (Dict.lookup entries "pack_name" = None ->
   load_data (JDict entries) = Raise (KeyError "pack_name")).
Proof.
  intros Hrounds. split.
  - intros p s m Hp Hs Hm Hq Hc Hr. unfold load_data, get, getitem.
    rewrite Hrounds, Hp, Hs, Hm, Hq, Hc, Hr. reflexivity.
  - intros Hp. unfold load_data, get, getitem. rewrite Hrounds, Hp.
    reflexivity.
Qed.

Lemma load_data_defaults_witness :
  load_data legacy_document =
  Ok (mkWorkflowState "demo" "2025-01-01T00:00:00+00:00" 3 (85 # 10) [] false
        "") /\
  load_data (JDict [("started_at", JStr "2025-01-01T00:00:00+00:00")]) =
  Raise (KeyError "pack_name").
Proof.
  split.
  - apply (proj1 (load_data_defaults
                    [("pack_name", JStr "demo");
                     ("started_at", JStr "2025-01-01T00:00:00+00:00");
                     ("max_rounds", JInt 3)] eq_refl)); reflexivity.
  - apply (proj2 (load_data_defaults
                    [("started_at", JStr "2025-01-01T00:00:00+00:00")]
                    eq_refl)). reflexivity.
Defined.

(** ** The parser of the critic *)















Section ParserFacts.

Variable json_loads : string -> json + string.

Local Abbreviation loads_or_error text :=
  (match json_loads text with
   | inl parsed => Ok parsed
   | inr e => Raise (ValueError ("Critic response is not valid JSON: " ++ e))
   end).










End ParserFacts.


(** ** The grouping of the images by screen type *)

Lemma dict_set_absent {V : Type} (d : list (string * V)) (k : string) (v : V) :
  Dict.lookup d k = None ->
  Dict.set d k v = (d ++ [(k, v)])%list /\ ~ In k (map fst d).
Proof.
  induction d as [|[k' w] d IH]; cbn; intros H; [now split|].
  destruct (String.eqb_spec k' k) as [->|Hne]; [discriminate|].
  destruct (IH H) as [-> Hnot]. split; [reflexivity|].
  intros [Heq|Hin]; [congruence | contradiction].
Qed.

Lemma dict_set_present {V : Type} (d : list (string * V)) (k : string)
    (v0 v : V) :
  Dict.lookup d k = Some v0 ->
  exists d1 d2, d = (d1 ++ (k, v0) :: d2)%list /\
                Dict.set d k v = (d1 ++ (k, v) :: d2)%list.
Proof.
  induction d as [|[k' w] d IH]; cbn; intros H; [discriminate|].
  destruct (String.eqb_spec k' k) as [->|Hne].
  - injection H as ->. exists [], d. now split.
  - destruct (IH H) as (d1 & d2 & -> & ->).
    exists ((k', w) :: d1), d2. now split.
Qed.

Lemma dict_set_set {V : Type} (d : list (string * V)) (k : string) (v v' : V) :
  Dict.set (Dict.set d k v) k v' = Dict.set d k v'.
Proof.
  induction d as [|[k' w] d IH]; cbn.
  - now rewrite String.eqb_refl.
  - destruct (String.eqb k' k) eqn:E; cbn; rewrite E; [reflexivity|].
    now rewrite IH.
Qed.

(** An image joins the group of its screen type, or opens a new group at
    the end. *)
Lemma group_step_cases (d : list (string * list ImageFile)) (img : ImageFile) :
  let st := screen_type_of (img_stem img) in
  (exists paths d1 d2,
      d = (d1 ++ (st, paths) :: d2)%list /\
      group_step d img = (d1 ++ (st, paths ++ [img]) :: d2)%list) \/
  (~ In st (map fst d) /\ group_step d img = (d ++ [(st, [img])])%list).
Proof.
  cbv zeta. unfold group_step.
  destruct (Dict.lookup d (screen_type_of (img_stem img))) as [paths|] eqn:E.
  - left. rewrite E.
    destruct (dict_set_present d _ paths (append paths img) E)
      as (d1 & d2 & Hd & Hset).
    exists paths, d1, d2. now split.
  - right. rewrite dict_lookup_set, dict_set_set.
    destruct (dict_set_absent d _ (append [] img) E) as [Hset Hnot].
    now split.
Qed.

Lemma flatten_images_app (a b : list (string * list ImageFile)) :
  flatten_images (a ++ b) = (flatten_images a ++ flatten_images b)%list.
Proof. apply flat_map_app. Qed.

Lemma group_step_grouped (d : list (string * list ImageFile))
    (seen : list ImageFile) (img : ImageFile) :
  grouped d seen -> grouped (group_step d img) (seen ++ [img]).
Proof.
  intros (Hkeys & Hfull & Hperm). unfold grouped. rewrite map_app.
  cbn [map].
  destruct (group_step_cases d img)
    as [(paths & d1 & d2 & -> & ->) | (Hnot & ->)].
  - split; [|split].
    + rewrite map_app in *. exact Hkeys.
    + apply Forall_app in Hfull as [H1 H2]. apply Forall_app. split; [exact H1|].
      inversion H2 as [|? ? _ H3]; subst. constructor; [|exact H3].
      cbn. now destruct paths.
    + rewrite flatten_images_app in *.
      cbn [flatten_images flat_map fst snd] in *. rewrite map_app. cbn [map].
      etransitivity; [|apply Permutation_app_tail; exact Hperm].
      rewrite <- !app_assoc. apply Permutation_app_head.
      apply Permutation_app_head. cbn [app].
      apply Permutation_cons_append.
  - split; [|split].
    + rewrite map_app. cbn [map fst].
      apply (Permutation_NoDup (Permutation_cons_append _ _)).
      now constructor.
    + apply Forall_app. split; [exact Hfull|]. constructor; [|constructor].
      discriminate.
    + rewrite flatten_images_app. cbn. now apply Permutation_app_tail.
Qed.

Lemma fold_group_step_grouped (more : list ImageFile) :
  forall d seen,
  grouped d seen -> grouped (fold_left group_step more d) (seen ++ more).
Proof.
  induction more as [|img more IH]; intros d seen H; cbn [fold_left].
  - now rewrite app_nil_r.
  - replace (seen ++ img :: more)%list with ((seen ++ [img]) ++ more)%list
      by (now rewrite <- app_assoc).
    apply IH. now apply group_step_grouped.
Qed.

(** X16. The grouping of [evaluate_pack] files every image under its
    screen type and loses none: the screen types are distinct, no group is
    empty, the images of the groups are those given, and the selected
    images of the mock and fallback evaluations name one image per screen
    type. *)
Theorem grouping_partitions (pngs : list ImageFile) :
  let d := fold_left group_step pngs [] in
  NoDup (map fst d) /\
  Forall (fun kv => snd kv <> []) d /\
  Permutation (flatten_images d)
    (map (fun img => (screen_type_of (img_stem img), img)) pngs) /\
  map fst (first_names d) = map fst d.
Proof.
  cbv zeta.
  destruct (fold_group_step_grouped pngs [] [])
    as (Hkeys & Hfull & Hperm).
  { repeat split; constructor. }
  repeat split; try assumption.
  clear Hkeys Hperm. induction Hfull as [|[k paths] d Hk _ IH]; [reflexivity|].
  unfold first_names in *. cbn [flat_map map fst snd] in *.
  destruct paths as [|img paths]; [now destruct Hk|].
  cbn. now rewrite IH.
Qed.

(** ** The images sent to the vision model *)

Lemma take_paths_firstn (max_images : Z) (screen_type : string)
    (paths : list ImageFile) :
  forall all_images,
  len all_images < max_images ->
  take_paths max_images screen_type paths all_images =
  (all_images ++
   firstn (Z.to_nat (max_images - len all_images))
          (map (pair screen_type) paths))%list.
Proof.
  induction paths as [|path paths IH]; intros all_images Hlt; cbn [take_paths map].
  - now rewrite firstn_nil, app_nil_r.
  - assert (Hlen : len (append all_images (screen_type, path)) =
                   len all_images + 1).
    { unfold append, len. rewrite length_app. cbn. lia. }
    replace (Z.to_nat (max_images - len all_images))
      with (S (Z.to_nat (max_images - (len all_images + 1)))) by lia.
    cbn [firstn].
    destruct (Z.geb_spec (len (append all_images (screen_type, path)))
                max_images) as [Hfull|Hroom].
    + replace (Z.to_nat (max_images - (len all_images + 1))) with 0%nat by lia.
      reflexivity.
    + rewrite IH by lia. rewrite Hlen. unfold append.
      now rewrite <- app_assoc.
Qed.

Lemma take_images_firstn (max_images : Z)
    (groups : list (string * list ImageFile)) :
  forall all_images,
  len all_images < max_images ->
  take_images max_images groups all_images =
  (all_images ++
   firstn (Z.to_nat (max_images - len all_images))
          (flatten_images groups))%list.
Proof.
  induction groups as [|[screen_type paths] groups IH]; intros all_images Hlt;
    cbn [take_images].
  - cbn. now rewrite firstn_nil, app_nil_r.
  - rewrite take_paths_firstn by exact Hlt.
    set (room := Z.to_nat (max_images - len all_images)).
    set (tagged := map (pair screen_type) paths).
    change (flatten_images ((screen_type, paths) :: groups))
      with (tagged ++ flatten_images groups)%list.
    rewrite firstn_app.
    assert (Hlen : len (all_images ++ firstn room tagged) =
                   len all_images + Z.of_nat (length (firstn room tagged))).
    { unfold len. rewrite length_app. lia. }
    pose proof (firstn_le_length room tagged) as Hle.
    destruct (Z.geb_spec (len (all_images ++ firstn room tagged)) max_images)
      as [Hfull|Hroom].
    + assert (Hall : length (firstn room tagged) = room)
        by (pose proof (length_firstn room tagged); lia).
      rewrite length_firstn in Hall.
      replace (room - length tagged)%nat with 0%nat by lia.
      cbn [firstn]. now rewrite app_nil_r.
    + rewrite IH by exact Hroom. rewrite Hlen.
      assert (Hwhole : firstn room tagged = tagged).
      { apply firstn_all2. rewrite length_firstn in *. lia. }
      rewrite Hwhole, <- app_assoc. do 2 f_equal. f_equal. unfold room. lia.
Qed.

Section VisionFacts.

Variable encode_image_base64 : ImageFile -> result string.

Lemma add_image_part_step (content_parts : list json)
    (entry : string * ImageFile) :
  (length content_parts <=
   length (add_image_part encode_image_base64 content_parts entry) <=
   S (length content_parts))%nat.
Proof.
  unfold add_image_part, append.
  destruct (encode_image_base64 (snd entry)); [rewrite length_app; cbn|]; lia.
Qed.

Lemma add_image_part_length (entries : list (string * ImageFile)) :
  forall content_parts,
  (length content_parts <=
   length (fold_left (add_image_part encode_image_base64) entries
             content_parts) <=
   length content_parts + length entries)%nat.
Proof.
  induction entries as [|entry entries IH]; intros content_parts;
    cbn [fold_left length]; [lia|].
  specialize (IH (add_image_part encode_image_base64 content_parts entry)).
  pose proof (add_image_part_step content_parts entry). lia.
Qed.

(** X17. With a limit of at least one image, the images prepared for the
    vision model are the first [max_images] images of the grouping, in its
    order, and the user message carries the text part and at most
    [max_images] image parts (an image that cannot be encoded is left
    out). *)
Theorem vision_images_capped (system_prompt evaluation_prompt : string)
    (groups : list (string * list ImageFile)) (max_images : Z) :
  1 <= max_images ->
  take_images max_images groups [] =
    firstn (Z.to_nat max_images) (flatten_images groups) /\
  exists content_parts,
    prepare_vision_messages encode_image_base64 system_prompt
      evaluation_prompt groups max_images =
    [JDict [("role", JStr "system"); ("content", JStr system_prompt)];
     JDict [("role", JStr "user"); ("content", JList content_parts)]] /\
    (1 <= length content_parts <= 1 + Z.to_nat max_images)%nat.
Proof.
  intros Hmax.
  assert (Htake : take_images max_images groups [] =
                  firstn (Z.to_nat max_images) (flatten_images groups)).
  { rewrite take_images_firstn by (cbn; lia). cbn [app]. f_equal. cbn. lia. }
  split; [exact Htake|].
  unfold prepare_vision_messages. eexists. split; [reflexivity|].
  rewrite Htake.
  pose proof (add_image_part_length
                (firstn (Z.to_nat max_images) (flatten_images groups))
                [JDict [("type", JStr "text"); ("text", JStr evaluation_prompt)]])
    as Hlen.
  pose proof (firstn_le_length (Z.to_nat max_images) (flatten_images groups)).
  cbn [length] in Hlen. lia.
Qed.

End VisionFacts.

Lemma vision_images_capped_witness :
  take_images 2 (fold_left group_step three_images []) [] =
  [("ending", nth 0 three_images good_overlay);
   ("starting", nth 1 three_images good_overlay)].
Proof.
  rewrite (proj1 (vision_images_capped (fun _ => Ok "aGVsbG8=") "system"
                    "prompt" (fold_left group_step three_images []) 2
                    ltac:(lia))).
  reflexivity.
Defined.

(** ** The score trend and the round brief *)

(** X18. The score trend grows at its end by the score of each evaluated
    round that is added, and its last entry is the latest score. *)
Theorem score_trend_follows_rounds (ws : WorkflowState) :
  (forall r,
     score_trend (add_round ws r) =
     (score_trend ws ++ match evaluation r with
                        | Some ev => [overall_score ev]
                        | None => []
                        end)%list) /\
  (forall ev, latest_evaluation ws = Some ev ->
              last_item (score_trend ws) = Some (overall_score ev)).
Proof.
  split.
  - intros r. unfold score_trend, add_round, append. cbn [rounds].
    rewrite flat_map_app. cbn. now rewrite app_nil_r.
  - unfold latest_evaluation, score_trend. intros ev.
    destruct (rounds ws) as [|r0 rs] eqn:E; [discriminate|].
    assert (Hne : r0 :: rs <> []) by discriminate.
    destruct (exists_last Hne) as (l & r & ->).
    rewrite last_item_app, flat_map_app. intros Hev. cbn [flat_map].
    rewrite Hev. cbn [app]. apply last_item_app.
Qed.

Lemma dict_lookup_set_other {V : Type} (d : list (string * V)) (k k' : string)
    (v : V) :
  k <> k' -> Dict.lookup (Dict.set d k v) k' = Dict.lookup d k'.
Proof.
  intros Hne. induction d as [|[k0 w] d IH]; cbn.
  - apply String.eqb_neq in Hne. now rewrite Hne.
  - destruct (String.eqb_spec k0 k) as [->|H0]; cbn.
    + apply String.eqb_neq in Hne. now rewrite Hne.
    + now rewrite IH.
Qed.

Lemma dict_lookup_set_keeps {V : Type} (d : list (string * V)) (k k' : string)
    (v : V) :
  Dict.lookup d k' <> None -> Dict.lookup (Dict.set d k v) k' <> None.
Proof.
  intros H. destruct (String.eqb_spec k k') as [->|Hne].
  - now rewrite dict_lookup_set.
  - now rewrite dict_lookup_set_other.
Qed.

Lemma two_last_items {A : Type} (l : list A) :
  (2 <= length l)%nat ->
  exists a b, last_item l = Some a /\ second_last_item l = Some b.
Proof.
  destruct l as [|x [|y l]]; cbn [length]; try lia. intros _.
  revert x y. induction l as [|z l IH]; intros x y.
  - exists y, x. now split.
  - destruct (IH y z) as (a & b & Ha & Hb). exists a, b.
    split; [exact Ha | exact Hb].
Qed.

(** X19. The round brief always holds the keys round_num, pack_name, theme,
    max_rounds, threshold, context, previous_score and deltas, so reading
    its context never fails; it holds score_trend exactly for a round other
    than the first when the latest round is evaluated. *)
Theorem brief_keys (repr_float : Q -> string) (round_num : Z)
    (theme : string) (ws : WorkflowState) :
  let brief := prepare_round_brief repr_float round_num theme ws in
  (forall k,
     In k ["round_num"; "pack_name"; "theme"; "max_rounds"; "threshold";
           "context"; "previous_score"; "deltas"] ->
     Dict.lookup brief k <> None) /\
  (Dict.lookup brief "score_trend" <> None <->
   round_num <> 1 /\ latest_evaluation ws <> None).
Proof.
  cbv zeta. unfold prepare_round_brief.
  destruct (Z.eqb_spec round_num 1) as [Hone|Hnot].
  - split.
    + intros k Hk. cbn in Hk.
      repeat (destruct Hk as [<-|Hk]; [cbn; discriminate|]). destruct Hk.
    + cbn. split; [congruence | intros [H _]; contradiction].
  - destruct (latest_evaluation ws) as [prev_eval|].
    + assert (Hbase : forall k,
                 In k ["round_num"; "pack_name"; "theme"; "max_rounds";
                       "threshold"; "context"; "previous_score"; "deltas"] ->
                 Dict.lookup
                   (Dict.set
                      (Dict.set
                         (Dict.set
                            [("round_num", str_int round_num);
                             ("pack_name", ws_pack_name ws);
                             ("theme", theme);
                             ("max_rounds", str_int (max_rounds ws));
                             ("threshold",
                              repr_float (quality_threshold ws))]
                            "context"
                            ("Improvement round. Previous score: " ++
                             fmt_1f (overall_score prev_eval) ++ "/10"))
                         "previous_score" (fmt_1f (overall_score prev_eval)))
                      "deltas"
                      (Str.join nl
                         (map (fun d => "  - " ++ d) (deltas prev_eval)))) k
                 <> None).
      { intros k Hk. cbn in Hk.
        repeat (destruct Hk as [<-|Hk]; [cbn; discriminate|]). destruct Hk. }
      destruct (len (score_trend ws) >=? 2) eqn:Hlen.
      * assert (Htwo : (2 <= length (score_trend ws))%nat).
        { unfold len in Hlen. rewrite Z.geb_leb in Hlen.
          apply Z.leb_le in Hlen. lia. }
        destruct (two_last_items _ Htwo) as (a & b & -> & ->).
        split.
        -- intros k Hk. apply dict_lookup_set_keeps. now apply Hbase.
        -- rewrite dict_lookup_set. split; [intros _; split; [exact Hnot|]|];
             discriminate.
      * split.
        -- intros k Hk. apply dict_lookup_set_keeps. now apply Hbase.
        -- rewrite dict_lookup_set. split; [intros _; split; [exact Hnot|]|];
             discriminate.
    + split.
      * intros k Hk. cbn in Hk.
        repeat (destruct Hk as [<-|Hk]; [cbn; discriminate|]). destruct Hk.
      * cbn. split; [congruence | intros [_ H]; congruence].
Qed.

(** ** Pricing *)

Lemma round_half_even_scale (n d c : Z) :
  0 < d -> 0 < c -> round_half_even (n * c) (d * c) = round_half_even n d.
Proof.
  intros Hd Hc. unfold round_half_even.
  rewrite Z.div_mul_cancel_r by lia.
  rewrite Z.mul_mod_distr_r by lia.
  pose proof (Z.mod_pos_bound n d Hd) as Hr.
  set (r := n mod d) in *.
  assert (H1 : (2 * (r * c) >? d * c) = (2 * r >? d)).
  { destruct (Z.gtb_spec (2 * (r * c)) (d * c)), (Z.gtb_spec (2 * r) d);
      try reflexivity; nia. }
  assert (H2 : (2 * (r * c) =? d * c) = (2 * r =? d)).
  { destruct (Z.eqb_spec (2 * (r * c)) (d * c)), (Z.eqb_spec (2 * r) d);
      try reflexivity; nia. }
  now rewrite H1, H2.
Qed.

Lemma round_half_even_mono_same (a b d : Z) :
  0 < d -> a <= b -> round_half_even a d <= round_half_even b d.
Proof.
  intros Hd Hab. unfold round_half_even.
  pose proof (Z.div_le_mono a b d Hd Hab) as Hk.
  pose proof (Z.div_mod a d ltac:(lia)) as Ha.
  pose proof (Z.div_mod b d ltac:(lia)) as Hb.
  pose proof (Z.mod_pos_bound a d Hd) as Hra.
  pose proof (Z.mod_pos_bound b d Hd) as Hrb.
  set (ka := a / d) in *. set (kb := b / d) in *.
  set (ra := a mod d) in *. set (rb := b mod d) in *.
  destruct (Z.eq_dec ka kb) as [Heq|Hne].
  - rewrite Heq in *. assert (ra <= rb) by lia.
    destruct (Z.gtb_spec (2 * ra) d), (Z.gtb_spec (2 * rb) d),
      (Z.eqb_spec (2 * ra) d), (Z.eqb_spec (2 * rb) d);
      cbn [orb andb]; try lia; destruct (Z.odd kb); cbn [orb andb]; lia.
  - assert (ka + 1 <= kb) by lia.
    destruct ((2 * ra >? d) || (2 * ra =? d) && Z.odd ka),
      ((2 * rb >? d) || (2 * rb =? d) && Z.odd kb); lia.
Qed.

(** Rounding to two decimals is monotone. *)
Lemma round_2_mono (x y : Q) : (x <= y)%Q -> (round_2 x <= round_2 y)%Q.
Proof.
  unfold Qle, round_2. cbn [Qnum Qden]. intros H.
  destruct x as [nx dx], y as [ny dy]. cbn [Qnum Qden] in *.
  apply Z.mul_le_mono_nonneg_r; [lia|].
  rewrite <- (round_half_even_scale (nx * 100) (Z.pos dx) (Z.pos dy))
    by lia.
  rewrite <- (round_half_even_scale (ny * 100) (Z.pos dy) (Z.pos dx))
    by lia.
  rewrite (Z.mul_comm (Z.pos dy) (Z.pos dx)).
  apply round_half_even_mono_same; nia.
Qed.

Lemma ge_true_iff (a b : Q) : ge a b = true <-> (b <= a)%Q.
Proof. unfold ge. apply Qle_bool_iff. Qed.

Lemma ge_false_iff (a b : Q) : ge a b = false <-> ~ (b <= a)%Q.
Proof.
  unfold ge. rewrite <- Qle_bool_iff. destruct (Qle_bool b a);
    split; congruence.
Qed.

(** X20. [calculate_price] fails with [AttributeError] when the last round
    of the state has no evaluation, and never fails on a workflow state of
    the driver, whose rounds are all evaluated. *)
Theorem price_needs_evaluation (pack_name : string) (base_price : Q) :
  (forall ws r,
     last_item (rounds ws) = Some r -> evaluation r = None ->
     calculate_price pack_name (Some ws) base_price =
     Raise (AttributeError
              "'NoneType' object has no attribute 'overall_score'")) /\
  (forall (repr_float : Q -> string) (World : Type)
          (collaborators :
             Z -> WorkflowState -> World -> World * result RoundOutput)
          (ws : WorkflowState),
     driver_state repr_float World collaborators ws ->
     exists price, calculate_price pack_name (Some ws) base_price = Ok price).
Proof.
  split.
  - intros ws r Hlast Hev. unfold calculate_price. now rewrite Hlast, Hev.
  - intros repr_float World collaborators ws Hws.
    apply driver_state_recorded in Hws.
    unfold calculate_price.
    destruct (rounds ws) as [|r0 rs] eqn:E; [cbn; eauto|].
    assert (Hne : r0 :: rs <> []) by discriminate.
    destruct (exists_last Hne) as (l & r & Hl). rewrite Hl in *.
    rewrite last_item_app.
    apply Forall_app in Hws as [_ Hr]. inversion Hr as [|? ? [[ev Hev] _] _].
    rewrite Hev.
    destruct (ge (overall_score ev) 9); [cbn; eauto|].
    destruct (ge (overall_score ev) (85 # 10)); [cbn; eauto|].
    destruct (ge (overall_score ev) 8); cbn; eauto.
Qed.

(** X21. The price does not go down when the final score goes up: for two
    states whose last rounds are evaluated, the same pack name and the same
    base price, the higher score gives a price at least as high. *)
Theorem price_monotone_in_score (pack_name : string) (base_price : Q)
    (ws1 ws2 : WorkflowState) (r1 r2 : RoundState) (ev1 ev2 : PackEvaluation) :
  last_item (rounds ws1) = Some r1 -> evaluation r1 = Some ev1 ->
  last_item (rounds ws2) = Some r2 -> evaluation r2 = Some ev2 ->
  (overall_score ev1 <= overall_score ev2)%Q ->
  exists p1 p2,
    calculate_price pack_name (Some ws1) base_price = Ok p1 /\
    calculate_price pack_name (Some ws2) base_price = Ok p2 /\
    (p1 <= p2)%Q.
Proof.
  intros Hl1 He1 Hl2 He2 Hle. unfold calculate_price.
  rewrite Hl1, He1, Hl2, He2.
  set (premium := existsb _ _).
  destruct (ge (overall_score ev1) 9) eqn:A1;
    destruct (ge (overall_score ev1) (85 # 10)) eqn:B1;
    destruct (ge (overall_score ev1) 8) eqn:C1;
    destruct (ge (overall_score ev2) 9) eqn:A2;
    destruct (ge (overall_score ev2) (85 # 10)) eqn:B2;
    destruct (ge (overall_score ev2) 8) eqn:C2;
    cbn [bind];
    rewrite ?ge_true_iff, ?ge_false_iff in *;
    try (exfalso; lra);
    (eexists; eexists; split; [reflexivity|]; split; [reflexivity|];
     apply round_2_mono; destruct premium; lra).
Qed.

(** ** The final banner *)

Lemma banner_blocked (n : Z) :
  final_banner ("BLOCKED" ++ ": " ++ "BLOCKED by " ++ str_int n ++
                " critical issue(s)") =
  "[BLOCKED] Critical issues detected".
Proof.
  unfold final_banner.
  assert (HP : contains "PASS"
                 ("BLOCKED" ++ ": " ++ "BLOCKED by " ++ str_int n ++
                  " critical issue(s)") = false).
  { apply contains_first_absent. rewrite !occurs_app.
    rewrite (numeral_absent _ _ (numeral_str_int _)); reflexivity. }
  rewrite HP. reflexivity.
Qed.

Lemma banner_exhausted (q : Q) :
  final_banner ("CONTINUE" ++ ": " ++ "Max rounds reached with score " ++
                fmt_1f q ++ "/10") =
  "[CONTINUE] Max rounds reached".
Proof.
  unfold final_banner.
  assert (HP : contains "PASS"
                 ("CONTINUE" ++ ": " ++ "Max rounds reached with score " ++
                  fmt_1f q ++ "/10") = false).
  { apply contains_first_absent. rewrite !occurs_app.
    rewrite fmt_1f_absent by reflexivity. reflexivity. }
  assert (HB : contains "BLOCKED"
                 ("CONTINUE" ++ ": " ++ "Max rounds reached with score " ++
                  fmt_1f q ++ "/10") = false).
  { apply contains_first_absent. rewrite !occurs_app.
    rewrite fmt_1f_absent by reflexivity. reflexivity. }
  rewrite HP, HB. reflexivity.
Qed.

(** X22. The banner the command line prints for the completion reason of a
    stopped workflow names the decision of the project manager: PASS,
    BLOCKED, or CONTINUE when the rounds are used up. (The rendering of a
    float is taken not to hold the letter B.) *)
Theorem banner_names_decision (repr_float : Q -> string) (ws : WorkflowState)
    (decision reason : string) :
  (forall q, occurs "B" (repr_float q) = false) ->
  check_stopping_conditions repr_float ws = Ok (true, decision, reason) ->
  (decision = "PASS" \/ decision = "BLOCKED" \/ decision = "CONTINUE") /\
  final_banner (decision ++ ": " ++ reason) =
  if String.eqb decision "PASS" then "[PASS] Quality threshold met!"
  else if String.eqb decision "BLOCKED"
       then "[BLOCKED] Critical issues detected"
       else "[CONTINUE] Max rounds reached".
Proof.
  intros Hrepr. unfold check_stopping_conditions, should_continue.
  destruct (latest_evaluation ws) as [ev|] eqn:Hev; [|discriminate].
  rewrite (latest_score_of_evaluation ws ev Hev).
  destruct (truthy_list (critical_issues ev)).
  { cbn [negb].
    assert (HB : contains "BLOCKED"
                   ("BLOCKED by " ++ str_int (len (critical_issues ev)) ++
                    " critical issue(s)") = true) by reflexivity.
    rewrite HB. intros [= <- <-]. split; [auto|].
    exact (banner_blocked (len (critical_issues ev))). }
  destruct (passes_threshold ev).
  { cbn [negb].
    assert (HB : contains "BLOCKED"
                   ("PASS - Score " ++ fmt_1f (overall_score ev) ++
                    " ≥ threshold " ++ repr_float (quality_threshold ws))
                 = false).
    { apply contains_first_absent. rewrite !occurs_app, Hrepr.
      rewrite fmt_1f_absent by reflexivity. reflexivity. }
    rewrite HB.
    assert (HP : contains "PASS"
                   ("PASS - Score " ++ fmt_1f (overall_score ev) ++
                    " ≥ threshold " ++ repr_float (quality_threshold ws))
                 = true) by reflexivity.
    rewrite HP. cbn [orb]. intros [= <- <-]. split; [auto|]. reflexivity. }
  destruct (current_round ws >? max_rounds ws); [|discriminate].
  cbn [negb].
  destruct (max_rounds_reason_plain (max_rounds ws)) as (HB & HP & HT).
  cbv zeta in HB, HP, HT. rewrite HB, HP, HT. cbn [orb].
  destruct (truthy_num (overall_score ev) &&
            ge (overall_score ev) (quality_threshold ws)).
  - intros [= <- <-]. split; [auto|]. reflexivity.
  - intros [= <- <-]. split; [auto|].
    exact (banner_exhausted (overall_score ev)).
Qed.

Lemma price_monotone_in_score_witness :
  exists p1 p2,
    calculate_price "neon_cyberpunk"
      (Some (one_round_state 3 (85 # 10) 8 [])) (999 # 100) = Ok p1 /\
    calculate_price "neon_cyberpunk"
      (Some (one_round_state 3 (85 # 10) 9 [])) (999 # 100) = Ok p2 /\
    (p1 <= p2)%Q.
Proof.
  apply (price_monotone_in_score "neon_cyberpunk" (999 # 100)
           (one_round_state 3 (85 # 10) 8 [])
           (one_round_state 3 (85 # 10) 9 [])
           (mkRoundState 1 "2025-01-01T00:01:00+00:00" []
              (Some (mkPackEvaluation "demo" 8 [] [] [] [] true)) 3 0)
           (mkRoundState 1 "2025-01-01T00:01:00+00:00" []
              (Some (mkPackEvaluation "demo" 9 [] [] [] [] true)) 3 0)
           (mkPackEvaluation "demo" 8 [] [] [] [] true)
           (mkPackEvaluation "demo" 9 [] [] [] [] true)
           eq_refl eq_refl eq_refl eq_refl).
  discriminate.
Defined.

Lemma banner_names_decision_witness :
  final_banner ("BLOCKED" ++ ": " ++ "BLOCKED by 1 critical issue(s)") =
  "[BLOCKED] Critical issues detected".
Proof.
  apply (proj2 (banner_names_decision fmt_1f
                  (one_round_state 3 (85 # 10) 10 ["oversized archive"])
                  "BLOCKED" "BLOCKED by 1 critical issue(s)"
                  (fun q => fmt_1f_absent "B" q eq_refl eq_refl) eq_refl)).
Defined.

(** The prices of some packs. *)
Example price_examples :
  (forall p,
     calculate_price "neon_cyberpunk"
       (Some (one_round_state 3 (85 # 10) (92 # 10) [])) (999 # 100) = Ok p ->
     (p == 1499 # 100)%Q) /\
  (forall p,
     calculate_price "retro_prototype" None (999 # 100) = Ok p ->
     (p == 1199 # 100)%Q) /\
  (forall p,
     calculate_price "neon_cyberpunk"
       (Some (create_new "2025-01-01T00:00:00+00:00" "neon_cyberpunk" 3
                (85 # 10))) (12375 # 1000) = Ok p ->
     (p == 1238 # 100)%Q).
Proof. repeat split; intros p [= <-]; reflexivity. Qed.

(** ** What [save] touches *)

(** X23. A successful [save] leaves the document of the state in the state
    file, makes sure the qa directory exists, and changes no other path of
    the file system. *)
Theorem save_touches_only_state_file (ws : WorkflowState) (pack_dir : string)
    (fs fs' : file_system) :
  save ws pack_dir fs = Ok fs' ->
  fs' (state_file_of pack_dir) = Some (JsonFile (save_data ws)) /\
  fs' (path_join pack_dir "qa") = Some Dir /\
  (forall path, path <> state_file_of pack_dir ->
                path <> path_join pack_dir "qa" -> fs' path = fs path).
Proof. exact (save_effect ws pack_dir fs fs'). Qed.

Lemma save_touches_only_state_file_witness :
  exists fs',
    save sample_state "packs/demo" demo_fs = Ok fs' /\
    fs' "packs/demo/qa" = Some Dir /\
    fs' "packs/demo/config.yaml" = Some (TextFile "theme: neon").
Proof.
  destruct (save sample_state "packs/demo" demo_fs) as [fs'|e] eqn:E;
    [|discriminate E].
  exists fs'. split; [reflexivity|].
  destruct (save_touches_only_state_file sample_state "packs/demo" demo_fs fs' E)
    as (_ & Hqa & Hother).
  split; [exact Hqa|]. rewrite Hother; [reflexivity | discriminate ..].
Defined.
